(** * SSVC converter: a shallow embedding of [ssvc_converter.py] and of
    [main.py]: the per-row loop (lines 61 to 95), the preparation of the
    columns cell by cell (lines 43 to 55) and on the whole frame, with the
    [.str] accessor of pandas and the run from the frame that was read to
    the list of results (lines 35 to 95, module [Frame]), the names of the
    files (lines 28 and 125) and the translation of the report (lines 101
    to 122), with the properties of the decision engine, of the loop and
    of these steps.  Reading the file and writing the report are not
    modelled.

    Conventions of the embedding.

    - A Python [str] is a Rocq [string]: the bytes of its UTF-8 encoding.
      [str.lower] maps the ASCII capitals and the Kelvin sign U+212A, the
      one character outside ASCII whose lower case is an ASCII letter; it
      leaves every other character as it is, where Python may put another
      character outside ASCII.  So [Str.lower s] is equal to an ASCII
      literal exactly when [s.lower()] is, and on an ASCII text both are
      the same text.  All literals the converter compares with are ASCII.
      [str.capitalize] is modelled on the ASCII letters for the first
      character.  The value error of an enumeration prints its argument
      between single quotes, which is what Python prints for a text of
      printable ASCII characters without quote and backslash.
    - A Python object reaching the converter is a [pyobj]: a text, the
      float NaN that pandas stores in an empty cell, or [None].  These are
      the values a cell of the prepared frame of [main.py] can hold.
    - An exception is a value of [exn]; a call that may raise returns a
      [result].
    - A Python [set] of strings is a [gset string]; a [dict] with string
      keys, and a pandas row, is a [gmap] from [string]. *)

From Stdlib Require Import Ascii String NArith.
From stdpp Require Import base option list gmap strings.

Local Open Scope string_scope.

(** ** Strings *)

Module Str.

Definition is_upper (c : ascii) : bool :=
  let n := N_of_ascii c in ((65 <=? n) && (n <=? 90))%N.

Definition is_lower (c : ascii) : bool :=
  let n := N_of_ascii c in ((97 <=? n) && (n <=? 122))%N.

Definition lower_char (c : ascii) : ascii :=
  if is_upper c then ascii_of_N (N_of_ascii c + 32) else c.

Definition upper_char (c : ascii) : ascii :=
  if is_lower c then ascii_of_N (N_of_ascii c - 32) else c.

(** The three bytes of the Kelvin sign U+212A in UTF-8. *)
Definition is_kelvin (c c1 c2 : ascii) : bool :=
  Ascii.eqb c "226" && Ascii.eqb c1 "132" && Ascii.eqb c2 "170".

(** [s.lower()]: the Kelvin sign becomes [k], an ASCII capital becomes its
    small letter. *)
Fixpoint lower (s : string) : string :=
  match s with
  | EmptyString => EmptyString
  | String c s' =>
      match s' with
      | String c1 (String c2 rest) =>
          if is_kelvin c c1 c2 then String "k" (lower rest)
          else String (lower_char c) (lower s')
      | _ => String (lower_char c) (lower s')
      end
  end.

(** [s.capitalize()]: the first character in upper case, the others in
    lower case. *)
Definition capitalize (s : string) : string :=
  match s with
  | EmptyString => EmptyString
  | String c s' => String (upper_char c) (lower s')
  end.

End Str.

(** ** Python objects, exceptions and results *)

Inductive pyobj : Type :=
| PStr (s : string)
| PNaN
| PNone.

(** [type(v).__name__] *)
Definition type_name (v : pyobj) : string :=
  match v with
  | PStr _ => "str"
  | PNaN => "float"
  | PNone => "NoneType"
  end.

(** [pd.isna(v)] on a scalar *)
Definition isna (v : pyobj) : bool :=
  match v with PStr _ => false | PNaN | PNone => true end.

(** What an f-string prints for [v]. *)
Definition format (v : pyobj) : string :=
  match v with
  | PStr s => s
  | PNaN => "nan"
  | PNone => "None"
  end.

Inductive exn : Type :=
| TypeError (msg : string)
| ValueError (msg : string)
| KeyError (key : string)
| AttributeError (msg : string).

Inductive result (A : Type) : Type :=
| Return (a : A)
| Raise (e : exn).

Arguments Return {A} a.
Arguments Raise {A} e.

#[global] Instance result_ret : MRet result := fun A a => Return a.
#[global] Instance result_bind : MBind result := fun A B f m =>
  match m with
  | Return a => f a
  | Raise e => Raise e
  end.

Definition raises {A} (m : result A) : bool :=
  match m with Return _ => false | Raise _ => true end.

(** ** Enumerations of [ssvc_converter.py] *)

Inductive ExploitationLevel : Type := ACTIVE | POC | NONE.
Inductive Automatable : Type := YES | NO.
Inductive TechnicalImpact : Type := TOTAL | PARTIAL.
Inductive MissionImpact : Type := HIGH | MEDIUM | LOW.
Inductive SsvcAction : Type := ACT | ATTEND | TRACK_STAR | TRACK.

Definition ExploitationLevel_value (e : ExploitationLevel) : string :=
  match e with ACTIVE => "Active" | POC => "PoC" | NONE => "None" end.

Definition Automatable_value (a : Automatable) : string :=
  match a with YES => "Yes" | NO => "No" end.

Definition TechnicalImpact_value (t : TechnicalImpact) : string :=
  match t with TOTAL => "Total" | PARTIAL => "Partial" end.

Definition MissionImpact_value (m : MissionImpact) : string :=
  match m with HIGH => "High" | MEDIUM => "Medium" | LOW => "Low" end.

Definition SsvcAction_value (a : SsvcAction) : string :=
  match a with
  | ACT => "Act"
  | ATTEND => "Attend"
  | TRACK_STAR => "Track*"
  | TRACK => "Track"
  end.

(** [MissionImpact(v)]: the member whose value is [v], or the [ValueError]
    of the enum machinery. *)
Definition MissionImpact_call (v : string) : result MissionImpact :=
  if decide (v = "High") then Return HIGH
  else if decide (v = "Medium") then Return MEDIUM
  else if decide (v = "Low") then Return LOW
  else Raise (ValueError ("'" +:+ v +:+ "' is not a valid MissionImpact")).

(** ** class SsvcConverter *)

Module SsvcConverter.

(** The guard [if not isinstance(v, str): raise TypeError(...)]; on
    success the text of [v] is at hand. *)
Definition require_str (arg_name : string) (arg_val : pyobj) : result string :=
  match arg_val with
  | PStr s => Return s
  | _ => Raise (TypeError (arg_name +:+ " must be a string."))
  end.

Definition active_states : gset string :=
  {[ "active"; "attacked"; "high"; "critical"; "functional" ]}.

Definition poc_states : gset string :=
  {[ "poc"; "proof-of-concept"; "available" ]}.

Definition get_exploitation_level (exploit_maturity : pyobj)
  : result ExploitationLevel :=
  exploit_maturity ← require_str "exploit_maturity" exploit_maturity;
  let exploit_maturity := Str.lower exploit_maturity in
  if decide (exploit_maturity ∈ active_states) then Return ACTIVE
  else if decide (exploit_maturity ∈ poc_states) then Return POC
  else Return NONE.

(** The loop over [locals().items()] visits the arguments in the order of
    the signature and raises at the first one that is not a [str]. *)
Definition is_automatable (attack_complexity privileges_required
                           user_interaction : pyobj) : result Automatable :=
  attack_complexity ← require_str "attack_complexity" attack_complexity;
  privileges_required ← require_str "privileges_required" privileges_required;
  user_interaction ← require_str "user_interaction" user_interaction;
  let is_auto :=
    bool_decide (Str.lower attack_complexity = "l") &&
    bool_decide (Str.lower privileges_required = "n") &&
    bool_decide (Str.lower user_interaction = "n") in
  Return (if is_auto then YES else NO).

Definition valid_values : gset string := {[ "h"; "l"; "n" ]}.

Definition invalid_metric (arg_name arg_val : string) : exn :=
  ValueError ("Invalid value for metric '" +:+ arg_name +:+ "': '" +:+ arg_val
              +:+ "'. Must be 'h', 'l', or 'n'.").

(** The loop over [[('c', confidentiality), ('i', integrity),
    ('a', availability)]]. *)
Fixpoint check_metrics (args : list (string * string)) : result unit :=
  match args with
  | [] => Return ()
  | (arg_name, arg_val) :: rest =>
      if decide (Str.lower arg_val ∉ valid_values)
      then Raise (invalid_metric arg_name arg_val)
      else check_metrics rest
  end.

Definition get_technical_impact (confidentiality integrity availability : pyobj)
  : result TechnicalImpact :=
  confidentiality ← require_str "confidentiality" confidentiality;
  integrity ← require_str "integrity" integrity;
  availability ← require_str "availability" availability;
  _ ← check_metrics [("c", confidentiality); ("i", integrity); ("a", availability)];
  let is_total :=
    bool_decide (Str.lower confidentiality = "h") &&
    bool_decide (Str.lower integrity = "h") &&
    bool_decide (Str.lower availability = "h") in
  Return (if is_total then TOTAL else PARTIAL).

Definition get_final_action (exploitation : ExploitationLevel)
    (automatable : Automatable) (tech_impact : TechnicalImpact)
    (mission_impact : MissionImpact) : SsvcAction :=
  match exploitation with
  | ACTIVE =>
      match automatable with
      | YES => ACT
      | NO =>
          match tech_impact with
          | PARTIAL => ATTEND
          | TOTAL =>
              match mission_impact with
              | HIGH | MEDIUM => ACT
              | LOW => ATTEND
              end
          end
      end
  | POC =>
      match automatable with
      | YES =>
          match tech_impact with
          | PARTIAL => TRACK_STAR
          | TOTAL =>
              match mission_impact with
              | HIGH | MEDIUM => ATTEND
              | LOW => TRACK_STAR
              end
          end
      | NO =>
          match tech_impact with
          | PARTIAL => TRACK_STAR
          | TOTAL =>
              match mission_impact with
              | HIGH => ATTEND
              | MEDIUM | LOW => TRACK_STAR
              end
          end
      end
  | NONE =>
      match automatable with
      | YES =>
          match tech_impact with
          | PARTIAL => TRACK
          | TOTAL =>
              match mission_impact with
              | HIGH => ATTEND
              | MEDIUM | LOW => TRACK
              end
          end
      | NO =>
          match tech_impact with
          | PARTIAL => TRACK
          | TOTAL =>
              match mission_impact with
              | HIGH => TRACK_STAR
              | MEDIUM | LOW => TRACK
              end
          end
      end
  end.

(** [v.capitalize()]: only a [str] has the method. *)
Definition capitalize_method (v : pyobj) : result string :=
  match v with
  | PStr s => Return (Str.capitalize s)
  | _ => Raise (AttributeError ("'" +:+ type_name v
                                +:+ "' object has no attribute 'capitalize'"))
  end.

(** Line 100: [MissionImpact(system_context.capitalize())]. *)
Definition normalize_mission_impact (system_context : pyobj)
  : result MissionImpact :=
  capitalized ← capitalize_method system_context;
  MissionImpact_call capitalized.

(** The returned dictionary [{"path": {...}, "action": ...}]. *)
Record decision : Type := Decision {
  path : gmap string string;
  action : string
}.

Definition get_ssvc_decision_path (ac pr ui c i a exploit_maturity
                                   system_context : pyobj) : result decision :=
  exploitation ← get_exploitation_level exploit_maturity;
  automatable ← is_automatable ac pr ui;
  tech_impact ← get_technical_impact c i a;
  mission_impact ← normalize_mission_impact system_context;
  let final_action :=
    get_final_action exploitation automatable tech_impact mission_impact in
  Return {|
    path := {[ "Exploitation" := ExploitationLevel_value exploitation;
               "Automatable" := Automatable_value automatable;
               "Technical Impact" := TechnicalImpact_value tech_impact;
               "Mission & Well-being" := MissionImpact_value mission_impact ]};
    action := SsvcAction_value final_action
  |}.

End SsvcConverter.

#[global] Instance ExploitationLevel_eq_dec : EqDecision ExploitationLevel.
Proof. solve_decision. Defined.
#[global] Instance Automatable_eq_dec : EqDecision Automatable.
Proof. solve_decision. Defined.
#[global] Instance TechnicalImpact_eq_dec : EqDecision TechnicalImpact.
Proof. solve_decision. Defined.
#[global] Instance MissionImpact_eq_dec : EqDecision MissionImpact.
Proof. solve_decision. Defined.
#[global] Instance SsvcAction_eq_dec : EqDecision SsvcAction.
Proof. solve_decision. Defined.

(** ** The decision table of the specification (section 4.5)

    Written from the table, row by row, to be compared with
    [get_final_action].  A column that says "any" or "H or M" lists the
    values the row admits. *)

Module DecisionTable.

Record row : Type := Row {
  r_exploitation : ExploitationLevel;
  r_automatable : Automatable;
  r_tech_impact : list TechnicalImpact;
  r_mission : list MissionImpact;
  r_action : SsvcAction
}.

Definition any_tech : list TechnicalImpact := [TOTAL; PARTIAL].
Definition any_mission : list MissionImpact := [HIGH; MEDIUM; LOW].

Definition table : list row := [
  Row ACTIVE YES any_tech  any_mission    ACT;
  Row ACTIVE NO  [PARTIAL] any_mission    ATTEND;
  Row ACTIVE NO  [TOTAL]   [HIGH; MEDIUM] ACT;
  Row ACTIVE NO  [TOTAL]   [LOW]          ATTEND;
  Row POC    YES [PARTIAL] any_mission    TRACK_STAR;
  Row POC    YES [TOTAL]   [HIGH; MEDIUM] ATTEND;
  Row POC    YES [TOTAL]   [LOW]          TRACK_STAR;
  Row POC    NO  [PARTIAL] any_mission    TRACK_STAR;
  Row POC    NO  [TOTAL]   [HIGH]         ATTEND;
  Row POC    NO  [TOTAL]   [MEDIUM; LOW]  TRACK_STAR;
  Row NONE   YES [PARTIAL] any_mission    TRACK;
  Row NONE   YES [TOTAL]   [HIGH]         ATTEND;
  Row NONE   YES [TOTAL]   [MEDIUM; LOW]  TRACK;
  Row NONE   NO  [PARTIAL] any_mission    TRACK;
  Row NONE   NO  [TOTAL]   [HIGH]         TRACK_STAR;
  Row NONE   NO  [TOTAL]   [MEDIUM; LOW]  TRACK
].

Definition cell : Type :=
  ExploitationLevel * Automatable * TechnicalImpact * MissionImpact.

(** The cells a row stands for. *)
Definition expand (r : row) : list (cell * SsvcAction) :=
  t ← r_tech_impact r;
  m ← r_mission r;
  [((r_exploitation r, r_automatable r, t, m), r_action r)].

(** The table, one line per cell. *)
Definition cells : list (cell * SsvcAction) := table ≫= expand.

(** The actions the table gives for a cell: one per line that mentions it. *)
Definition lookup (k : cell) : list SsvcAction :=
  snd <$> List.filter (fun kv => bool_decide (kv.1 = k)) cells.

End DecisionTable.

(** The CVSS domain of an impact metric, compared without case: the
    condition under which the metric check of [get_technical_impact]
    lets a text through. *)
Definition is_metric (v : string) : Prop :=
  Str.lower v = "h" ∨ Str.lower v = "l" ∨ Str.lower v = "n".

(** ** The per-row loop of [main.py] *)

Module Main.

Import SsvcConverter.

(** [row.get(key)]: [None] when the row has no such column. *)
Definition get (row : gmap string pyobj) (key : string) : pyobj :=
  default PNone (row !! key).

(** [d[key]], on a row as on a dictionary. *)
Definition getitem {V} (d : gmap string V) (key : string) : result V :=
  match d !! key with
  | Some v => Return v
  | None => Raise (KeyError key)
  end.

Definition is_None (v : pyobj) : bool :=
  match v with PNone => true | _ => false end.

(** [str(e)], as the f-string of the handler prints the exception: the
    message, and for a [KeyError] the key between quotes. *)
Definition exn_str (e : exn) : string :=
  match e with
  | TypeError msg | ValueError msg | AttributeError msg => msg
  | KeyError key => "'" +:+ key +:+ "'"
  end.

(** The body of the [try] block for one row (lines 64 to 88). *)
Definition try_row (row : gmap string pyobj) : result (gmap string string) :=
  _ ← (if is_None (get row "ac") || isna (get row "ac")
       then Raise (ValueError "Données CVSS manquantes ou mal formatées")
       else Return ());
  _ ← (if isna (get row "exploit_maturity")
       then nature ← getitem row "Nature Exploit";
            Raise (ValueError ("Nature Exploit non reconnue: '"
                               +:+ format nature +:+ "'"))
       else Return ());
  _ ← (if isna (get row "system_context")
       then criticite ← getitem row "Criticité";
            Raise (ValueError ("Criticité non reconnue: '"
                               +:+ format criticite +:+ "'"))
       else Return ());
  ac ← getitem row "ac";
  pr ← getitem row "pr";
  ui ← getitem row "ui";
  c ← getitem row "c";
  i ← getitem row "i";
  a ← getitem row "a";
  exploit_maturity ← getitem row "exploit_maturity";
  system_context ← getitem row "system_context";
  decision ← get_ssvc_decision_path ac pr ui c i a
               exploit_maturity system_context;
  exploitation ← getitem (path decision) "Exploitation";
  automatable ← getitem (path decision) "Automatable";
  tech_impact ← getitem (path decision) "Technical Impact";
  Return ({[ "SSVC Exploitation" := exploitation;
             "SSVC Automatable" := automatable;
             "SSVC Technical Impact" := tech_impact;
             "SSVC Action" := action decision ]} : gmap string string).

(** [except (ValueError, TypeError, KeyError)] *)
Definition caught (e : exn) : bool :=
  match e with
  | ValueError _ | TypeError _ | KeyError _ => true
  | AttributeError _ => false
  end.

(** The entry the handler appends. *)
Definition error_entry (e : exn) : gmap string string :=
  {[ "SSVC Exploitation" := "Erreur";
     "SSVC Automatable" := "Erreur";
     "SSVC Technical Impact" := "Erreur";
     "SSVC Action" := "Erreur de traitement: " +:+ exn_str e ]}.

(** One turn of the loop: the entry appended to [results_list], or the
    exception that leaves the loop because the handler does not catch
    it. *)
Definition process_row (row : gmap string pyobj) : result (gmap string string) :=
  match try_row row with
  | Return flat_results => Return flat_results
  | Raise e => if caught e then Return (error_entry e) else Raise e
  end.

(** The loop [for index, row in dataframe.iterrows()], threading
    [results_list]. *)
Fixpoint process_rows (rows : list (gmap string pyobj))
    (results_list : list (gmap string string))
  : result (list (gmap string string)) :=
  match rows with
  | [] => Return results_list
  | row :: rest =>
      entry ← process_row row;
      process_rows rest (results_list ++ [entry])
  end.

(** Whether an entry of the output is the marker of a failed row. *)
Definition is_error_entry (entry : gmap string string) : bool :=
  bool_decide (entry !! "SSVC Exploitation" = Some "Erreur").

(** A row as the loop receives it, once the preparation of lines 43 to 58
    has filled [exploit_maturity], [system_context] and the columns of the
    CVSS vector. *)
Definition sample_row (exploit_maturity system_context : string)
  : gmap string pyobj :=
  list_to_map [
    ("Nature Exploit", PStr "Existant");
    ("Criticité", PStr "XX");
    ("CVSS 3 Vecteur", PStr "CVSS:3.1/AV:N/AC:L/PR:N/UI:N/S:U/C:H/I:H/A:H");
    ("exploit_maturity", PStr exploit_maturity);
    ("system_context", PStr system_context);
    ("cvss", PStr "3.1"); ("av", PStr "n"); ("ac", PStr "l");
    ("pr", PStr "n"); ("ui", PStr "n"); ("s", PStr "u");
    ("c", PStr "h"); ("i", PStr "h"); ("a", PStr "h") ].

End Main.

(** ** More of [str], for [main.py] *)

Module StrOps.

(** [s.count(c)] for a one-character [c]. *)
Fixpoint count (c : ascii) (s : string) : nat :=
  match s with
  | EmptyString => 0
  | String x s' => (if Ascii.eqb x c then 1 else 0) + count c s'
  end.

(** [s.split(sep)] for a one-character [sep]: every occurrence cuts, empty
    parts are kept, and the empty text gives one empty part. *)
Fixpoint split (sep : ascii) (s : string) : list string :=
  match s with
  | EmptyString => [EmptyString]
  | String x s' =>
      if Ascii.eqb x sep then EmptyString :: split sep s'
      else match split sep s' with
           | part :: parts => String x part :: parts
           | [] => [String x EmptyString]
           end
  end.

(** [sep.join(parts)] *)
Fixpoint join (sep : ascii) (parts : list string) : string :=
  match parts with
  | [] => EmptyString
  | [part] => part
  | part :: rest => part +:+ String sep (join sep rest)
  end.

(** [s.endswith(suffix)] *)
Definition endswith (s suffix : string) : bool :=
  let n := String.length s in
  let m := String.length suffix in
  Nat.leb m n && String.eqb (substring (n - m) m s) suffix.

(** [s.replace(old, new)] for a non-empty [old]: the occurrences of [old]
    are taken from the left and do not overlap.  [skip] counts the
    characters of a replaced occurrence that are still to be passed. *)
Fixpoint replace_from (old new s : string) (skip : nat) : string :=
  match s with
  | EmptyString => EmptyString
  | String x s' =>
      match skip with
      | S k => replace_from old new s' k
      | O =>
          if String.prefix old s
          then new +:+ replace_from old new s' (String.length old - 1)
          else String x (replace_from old new s' 0)
      end
  end.

Definition replace (old new s : string) : string := replace_from old new s 0.

End StrOps.

(** ** The rest of [main.py]: preparation of the columns and file names *)

Module Prepare.

Import StrOps.

(** Line 28: the guard on the name of the input file. *)
Definition accepts (input_file : string) : bool :=
  endswith (Str.lower input_file) ".csv".

(** Line 125: the name of the report. *)
Definition output_file (input_file : string) : string :=
  replace ".csv" "_ssvc_rapport_final.csv" input_file.

Definition exploit_mapping : gmap string string :=
  {[ "internet" := "active"; "existant" := "active";
     "proof of concept" := "poc"; "non prouvé" := "none" ]}.

Definition context_mapping : gmap string string :=
  {[ "X" := "medium"; "XX" := "high"; "XXX" := "high"; "XXXX" := "high" ]}.

(** One cell of [column.str.lower().map(mapping)] (lines 48 and 49): a
    text is lowered and looked up, and becomes NaN when the mapping has no
    such key; an empty cell stays empty.  What [.str] does on the whole
    column, where no cell is a text, is [Frame.str_accessor]. *)
Definition str_lower_map (mapping : gmap string string) (v : pyobj) : pyobj :=
  match v with
  | PStr s =>
      match mapping !! Str.lower s with
      | Some x => PStr x
      | None => PNaN
      end
  | PNaN | PNone => PNaN
  end.

(** [key, value = item.split(':')]: exactly two parts, or the unpacking
    raises the [ValueError] that the handler of [parse_cvss_vector]
    catches ([None] here). *)
Definition unpack_pair (item : string) : option (string * string) :=
  match split ":" item with
  | [key; value] => Some (key, value)
  | _ => None
  end.

(** The dictionary comprehension, item after item; a later item replaces
    an earlier one of the same key. *)
Fixpoint comprehension (items : list string) (d : gmap string string)
  : option (gmap string string) :=
  match items with
  | [] => Some d
  | item :: rest =>
      match unpack_pair item with
      | Some (key, value) =>
          comprehension rest (<[Str.lower key := Str.lower value]> d)
      | None => None
      end
  end.

(** Lines 51 to 55; [str(vector_string)] is the text of the cell, "nan"
    for an empty one. *)
Definition parse_cvss_vector (vector_string : pyobj) : gmap string string :=
  default ∅ (comprehension (split "/" (format vector_string)) ∅).

End Prepare.

(** [isinstance(v, str)] *)
Definition isinstance_str (v : pyobj) : bool :=
  match v with PStr _ => true | PNaN | PNone => false end.

(** The entry the loop leaves for a row: its flattened decision, or the
    marker of the exception it raised. *)
Definition entry_of (row : gmap string pyobj) : gmap string string :=
  match Main.try_row row with
  | Return flat_results => flat_results
  | Raise e => Main.error_entry e
  end.

(** ** Orders of urgency

    Each enumeration lists its members from the most to the least
    pressing; the rank of a member counts the members after it. *)

Definition ExploitationLevel_rank (e : ExploitationLevel) : nat :=
  match e with ACTIVE => 2 | POC => 1 | NONE => 0 end.

Definition Automatable_rank (a : Automatable) : nat :=
  match a with YES => 1 | NO => 0 end.

Definition TechnicalImpact_rank (t : TechnicalImpact) : nat :=
  match t with TOTAL => 1 | PARTIAL => 0 end.

Definition MissionImpact_rank (m : MissionImpact) : nat :=
  match m with HIGH => 2 | MEDIUM => 1 | LOW => 0 end.

Definition SsvcAction_rank (a : SsvcAction) : nat :=
  match a with ACT => 3 | ATTEND => 2 | TRACK_STAR => 1 | TRACK => 0 end.

(** ** The rendering of the report (lines 101 to 122) *)

Module Report.

Definition rename_mapping : gmap string string :=
  list_to_map [
    ("av", "Vecteur d'Attaque (AV)"); ("ac", "Complexité d'Attaque (AC)");
    ("pr", "Privilèges Requis (PR)"); ("ui", "Interaction Utilisateur (UI)");
    ("s", "Portée (S)"); ("c", "Impact Confidentialité (C)");
    ("i", "Impact Intégrité (I)"); ("a", "Impact Disponibilité (A)");
    ("exploit_maturity", "Maturité Exploit (Standard)");
    ("system_context", "Contexte Système (Standard)");
    ("SSVC Exploitation", "SSVC - Niveau d'Exploitation");
    ("SSVC Automatable", "SSVC - Est Automatisable");
    ("SSVC Technical Impact", "SSVC - Impact Technique");
    ("SSVC Action", "SSVC - Action Finale") ].

(** The name of a column after [final_df.rename(columns=rename_mapping)]. *)
Definition rename (column : string) : string :=
  default column (rename_mapping !! column).

Definition impact_map : gmap string string :=
  {[ "n" := "Aucun"; "l" := "Faible"; "h" := "Élevé" ]}.

Definition value_translation_map : gmap string (gmap string string) :=
  {[ "Vecteur d'Attaque (AV)" :=
       {[ "n" := "Réseau"; "a" := "Adjacent"; "l" := "Local";
          "p" := "Physique" ]};
     "Complexité d'Attaque (AC)" := {[ "l" := "Faible"; "h" := "Élevée" ]};
     "Privilèges Requis (PR)" :=
       {[ "n" := "Aucun"; "l" := "Faibles"; "h" := "Élevés" ]};
     "Interaction Utilisateur (UI)" := {[ "n" := "Aucune"; "r" := "Requise" ]};
     "Portée (S)" := {[ "u" := "Inchangée"; "c" := "Changée" ]};
     "Impact Confidentialité (C)" := impact_map;
     "Impact Intégrité (I)" := impact_map;
     "Impact Disponibilité (A)" := impact_map ]}.

(** One cell of [final_df.replace(value_translation_map)]: in a column the
    map names, a text that is a key of the column's dictionary is replaced
    by its value; every other cell is left as it is. *)
Definition translate_cell (column : string) (v : pyobj) : pyobj :=
  match v with
  | PStr s =>
      match value_translation_map !! column with
      | Some translations => PStr (default s (translations !! s))
      | None => v
      end
  | PNaN | PNone => v
  end.

End Report.

(** ** The frame: from the rows read to the output (lines 35 to 95)

    A frame is the list of its rows, which all have the columns of the
    frame; a cell is a text or NaN, as [read_csv] leaves it in a column
    that holds a text.  A frame in which a key of a vector is also the
    name of a column is outside the model (pandas then keeps two columns
    of that name). *)

Module Frame.

Import Main Prepare.

(** [dataframe[key]]: the cells of the column, or the [KeyError] of a
    frame without such a column. *)
Definition column (dataframe : list (gmap string pyobj)) (key : string)
  : result (list pyobj) :=
  if forallb (λ row, bool_decide (is_Some (row !! key))) dataframe
  then Return (flip get key <$> dataframe)
  else Raise (KeyError key).

(** [column.str]: pandas refuses the accessor on a column in which no
    cell is a text (a column of empty cells is read as numbers). *)
Definition str_accessor (cells : list pyobj) : result unit :=
  if existsb isinstance_str cells then Return ()
  else Raise (AttributeError "Can only use .str accessor with string values!").

(** The cells of one row in the frame built from the parsed vectors
    ([.apply(pd.Series)]): a column for every key met in the batch, NaN
    where the vector of the row has no such key. *)
Definition cvss_cells (columns : gset string) (metrics : gmap string string)
  : gmap string pyobj :=
  (PStr <$> metrics) ∪ gset_to_gmap PNaN columns.

(** One row after lines 48, 49 and 58. *)
Definition prepare_row (columns : gset string) (row : gmap string pyobj)
  : gmap string pyobj :=
  let row :=
    <["exploit_maturity" :=
        str_lower_map exploit_mapping (get row "Nature Exploit")]> row in
  let row :=
    <["system_context" :=
        str_lower_map context_mapping (get row "Criticité")]> row in
  row ∪ cvss_cells columns (parse_cvss_vector (get row "CVSS 3 Vecteur")).

(** Lines 43 to 58, in the order of the source: each column is read, and
    [.str] is checked, before the rows are built. *)
Definition prepare (dataframe : list (gmap string pyobj))
  : result (list (gmap string pyobj)) :=
  nature ← column dataframe "Nature Exploit";
  _ ← str_accessor nature;
  criticite ← column dataframe "Criticité";
  _ ← str_accessor criticite;
  vectors ← column dataframe "CVSS 3 Vecteur";
  let columns : gset string := ⋃ (dom <$> (parse_cvss_vector <$> vectors)) in
  Return (prepare_row columns <$> dataframe).

(** [main] from the frame it has read to [results_list]: nothing to do
    for an empty frame (line 35), else the preparation and the loop. *)
Definition main (dataframe : list (gmap string pyobj))
  : result (list (gmap string string)) :=
  match dataframe with
  | [] => Return []
  | _ => rows ← prepare dataframe; process_rows rows []
  end.

(** A record as [read_csv] gives it. *)
Definition record (nature criticite vector : pyobj) : gmap string pyobj :=
  {[ "Nature Exploit" := nature; "Criticité" := criticite;
     "CVSS 3 Vecteur" := vector ]}.

(** Four records with recognised wording and a full vector, and a third
    one whose vector has no confidentiality metric. *)
Definition example_frame : list (gmap string pyobj) :=
  [ record (PStr "Existant") (PStr "XX")
      (PStr "CVSS:3.1/AV:N/AC:L/PR:N/UI:N/S:U/C:H/I:H/A:H");
    record (PStr "Proof of concept") (PStr "X")
      (PStr "CVSS:3.1/AV:N/AC:L/PR:N/UI:N/S:U/C:H/I:H/A:H");
    record (PStr "Existant") (PStr "XX")
      (PStr "CVSS:3.1/AV:N/AC:L/PR:N/UI:N/S:U/I:H/A:H");
    record (PStr "Internet") (PStr "XXX")
      (PStr "CVSS:3.1/AV:N/AC:H/PR:L/UI:N/S:U/C:H/I:H/A:H");
    record (PStr "Existant") (PStr "XX")
      (PStr "CVSS:3.1/AV:L/AC:L/PR:N/UI:R/S:U/C:L/I:L/A:N") ].

End Frame.

(** ** Classes of texts *)

(** Every byte is an ASCII character. *)
Fixpoint is_ascii (s : string) : bool :=
  match s with
  | EmptyString => true
  | String c s' => (N_of_ascii c <? 128)%N && is_ascii s'
  end.

(** No character is an ASCII capital. *)
Fixpoint no_capital (s : string) : bool :=
  match s with
  | EmptyString => true
  | String c s' => negb (Str.is_upper c) && no_capital s'
  end.

(** * Properties *)

#[local] Set Warnings "-clear-no-such-hyp".

(** ** Case mapping *)

Section case_mapping.

Local Open Scope char_scope.

Local Ltac by_cases c :=
  destruct c as [[] [] [] [] [] [] [] []]; vm_compute; naive_solver.

Lemma lower_char_h c : Str.lower_char c = "h" ↔ c = "h" ∨ c = "H".
Proof. by_cases c. Qed.

Lemma lower_char_l c : Str.lower_char c = "l" ↔ c = "l" ∨ c = "L".
Proof. by_cases c. Qed.

Lemma lower_char_n c : Str.lower_char c = "n" ↔ c = "n" ∨ c = "N".
Proof. by_cases c. Qed.

Lemma upper_char_H c : Str.upper_char c = "H" ↔ Str.lower_char c = "h".
Proof. by_cases c. Qed.

Lemma upper_char_M c : Str.upper_char c = "M" ↔ Str.lower_char c = "m".
Proof. by_cases c. Qed.

Lemma upper_char_L c : Str.upper_char c = "L" ↔ Str.lower_char c = "l".
Proof. by_cases c. Qed.

Lemma lower_char_idemp c : Str.lower_char (Str.lower_char c) = Str.lower_char c.
Proof. destruct c as [[] [] [] [] [] [] [] []]; reflexivity. Qed.

(** A byte outside ASCII is what it lowers from. *)
Lemma lower_char_226 c : Str.lower_char c = "226" → c = "226".
Proof. destruct c as [[] [] [] [] [] [] [] []]; vm_compute; congruence. Qed.

Lemma lower_char_132 c : Str.lower_char c = "132" → c = "132".
Proof. destruct c as [[] [] [] [] [] [] [] []]; vm_compute; congruence. Qed.

Lemma lower_char_170 c : Str.lower_char c = "170" → c = "170".
Proof. destruct c as [[] [] [] [] [] [] [] []]; vm_compute; congruence. Qed.

Lemma is_kelvin_true c c1 c2 :
  Str.is_kelvin c c1 c2 = true ↔ c = "226" ∧ c1 = "132" ∧ c2 = "170".
Proof.
  unfold Str.is_kelvin. rewrite !andb_true_iff, !Ascii.eqb_eq. naive_solver.
Qed.

End case_mapping.

(** Induction on texts by their length: the Kelvin sign takes three bytes
    at a time. *)
Lemma string_length_ind (P : string → Prop) :
  (∀ s, (∀ t, (String.length t < String.length s)%nat → P t) → P s) →
  ∀ s, P s.
Proof.
  intros Hstep s.
  assert (∀ n t, (String.length t < n)%nat → P t) as Hall.
  { induction n as [|n IH]; intros t Ht; [lia|].
    apply Hstep. intros u Hu. apply IH. lia. }
  apply (Hall (S (String.length s))). lia.
Qed.

(** The two ways [lower] treats the first character. *)
Lemma lower_cons c s' :
  (∃ rest, c = "226"%char ∧ s' = String "132" (String "170" rest) ∧
           Str.lower (String c s') = String "k" (Str.lower rest)) ∨
  ((¬ ∃ rest, c = "226"%char ∧ s' = String "132" (String "170" rest)) ∧
   Str.lower (String c s') = String (Str.lower_char c) (Str.lower s')).
Proof.
  destruct s' as [|c1 [|c2 rest]];
    [right; split; [by intros (? & _ & ?)|done]..|].
  cbn [Str.lower]. destruct (Str.is_kelvin c c1 c2) eqn:Hk.
  - apply is_kelvin_true in Hk as (-> & -> & ->). left. by exists rest.
  - right. split; [|done]. intros (r & -> & [= -> -> _]).
    by vm_compute in Hk.
Qed.

Lemma lower_cons_plain c s' :
  c ≠ "226"%char →
  Str.lower (String c s') = String (Str.lower_char c) (Str.lower s').
Proof. destruct (lower_cons c s') as [(? & ? & _)|[_ ?]]; done. Qed.

(** A first character of the lower-case form other than [k] and the byte
    226 comes from the first character of the text. *)
Lemma lower_cons_eq c s' d t :
  d ≠ "k"%char → d ≠ "226"%char →
  Str.lower (String c s') = String d t ↔
  Str.lower_char c = d ∧ Str.lower s' = t.
Proof.
  intros Hk Hd.
  destruct (lower_cons c s') as [(rest & -> & -> & ->)|[_ ->]].
  - split; [by intros [= <- _]|]. intros [<- _]. done.
  - split; [by intros [= <- <-]|by intros [-> ->]].
Qed.

Lemma lower_nil s : Str.lower s = "" ↔ s = "".
Proof.
  destruct s as [|c s']; [done|].
  by destruct (lower_cons c s') as [(? & _ & _ & ->)|[_ ->]].
Qed.

(** A text whose lower-case form begins with the last two bytes of the
    Kelvin sign begins with them. *)
Lemma lower_kelvin_tail s r :
  Str.lower s = String "132" (String "170" r) →
  ∃ r', s = String "132" (String "170" r').
Proof.
  destruct s as [|x s1]; [done|].
  intros (Hx & Hs1)%lower_cons_eq; [|done..].
  apply lower_char_132 in Hx as ->.
  destruct s1 as [|y s2]; [done|].
  apply lower_cons_eq in Hs1 as [Hy _]; [|done..].
  apply lower_char_170 in Hy as ->. eauto.
Qed.

Lemma lower_idemp s : Str.lower (Str.lower s) = Str.lower s.
Proof.
  induction s as [s IH] using string_length_ind.
  destruct s as [|c s']; [done|].
  destruct (lower_cons c s') as [(rest & -> & -> & ->)|[Hplain ->]].
  - rewrite lower_cons_plain by done. rewrite IH; [done|simpl; lia].
  - destruct (lower_cons (Str.lower_char c) (Str.lower s'))
      as [(r & Hc & Hs' & _)|[_ ->]].
    + exfalso. apply Hplain. apply lower_char_226 in Hc as ->.
      apply lower_kelvin_tail in Hs' as [r' ->]. by exists r'.
    + rewrite lower_char_idemp, IH; [done|simpl; lia].
Qed.

(** A string lowers to the one-letter string [d], other than [k], exactly
    when it is one character that lowers to [d]. *)
Lemma lower_single s d :
  d ≠ "k"%char → d ≠ "226"%char →
  Str.lower s = String d "" ↔ ∃ c, s = String c "" ∧ Str.lower_char c = d.
Proof.
  intros Hk Hd. destruct s as [|c s']; [split; [done|by intros (? & ? & _)]|].
  rewrite lower_cons_eq, lower_nil by done. naive_solver.
Qed.

(** Case-insensitive comparison with a CVSS letter, spelled out. *)
Lemma lower_eq_h s : Str.lower s = "h" ↔ s = "h" ∨ s = "H".
Proof.
  rewrite lower_single by done. setoid_rewrite lower_char_h. naive_solver.
Qed.

Lemma lower_eq_l s : Str.lower s = "l" ↔ s = "l" ∨ s = "L".
Proof.
  rewrite lower_single by done. setoid_rewrite lower_char_l. naive_solver.
Qed.

Lemma lower_eq_n s : Str.lower s = "n" ↔ s = "n" ∨ s = "N".
Proof.
  rewrite lower_single by done. setoid_rewrite lower_char_n. naive_solver.
Qed.

(** ** The final action *)

Section final_action.

Import SsvcConverter DecisionTable.

(** C1: on each of the 3 x 2 x 2 x 3 = 36 cells, [get_final_action] returns
    the action of the table of section 4.5; the table covers every cell
    once, so the function is total on this space and agrees with the table
    everywhere.  The cells the specification quotes are spelled out. *)
Theorem get_final_action_table :
  length cells = 36 ∧
  (∀ e a t m, lookup (e, a, t, m) = [get_final_action e a t m]) ∧
  (∀ t m, get_final_action ACTIVE YES t m = ACT) ∧
  get_final_action POC NO TOTAL HIGH = ATTEND ∧
  get_final_action NONE NO TOTAL HIGH = TRACK_STAR ∧
  get_final_action NONE NO TOTAL MEDIUM = TRACK ∧
  get_final_action NONE NO TOTAL LOW = TRACK.
Proof.
  split; [reflexivity|].
  split; [by intros [] [] [] []|].
  split; [by intros [] []|done].
Qed.

(** Every line of the table is used: it is the action of the function on
    the cell it names. *)
Lemma cells_sound k x : (k, x) ∈ cells →
  x = get_final_action k.1.1.1 k.1.1.2 k.1.2 k.2.
Proof.
  intros H. apply list_elem_of_In in H. vm_compute in H.
  repeat (destruct H as [[= <- <-]|H]; [reflexivity|]). done.
Qed.

End final_action.

(** ** The classifiers *)

Section classifiers.

Import SsvcConverter.

(** Runs the [isinstance] guards on arguments that are texts. *)
Local Ltac run_guards :=
  cbn [require_str mbind result_bind]; cbv zeta.

Lemma valid_values_metric v : Str.lower v ∈ valid_values ↔ is_metric v.
Proof. unfold valid_values, is_metric. set_solver. Qed.

Lemma active_states_list s :
  s ∈ active_states ↔
  s ∈ ["active"; "attacked"; "high"; "critical"; "functional"].
Proof. unfold active_states. set_solver. Qed.

Lemma poc_states_list s :
  s ∈ poc_states ↔ s ∈ ["poc"; "proof-of-concept"; "available"].
Proof. unfold poc_states. set_solver. Qed.

(** C5: on a text, [get_exploitation_level] answers [Active] when the
    lower-case form is one of the five active tokens, [PoC] when it is one
    of the three proof-of-concept tokens, and [None] for every other text;
    it never raises on a text. *)
Theorem get_exploitation_level_spec (exploit_maturity : string) :
  (Str.lower exploit_maturity
     ∈ ["active"; "attacked"; "high"; "critical"; "functional"] →
   get_exploitation_level (PStr exploit_maturity) = Return ACTIVE) ∧
  (Str.lower exploit_maturity ∈ ["poc"; "proof-of-concept"; "available"] →
   get_exploitation_level (PStr exploit_maturity) = Return POC) ∧
  (Str.lower exploit_maturity
     ∉ ["active"; "attacked"; "high"; "critical"; "functional"] →
   Str.lower exploit_maturity ∉ ["poc"; "proof-of-concept"; "available"] →
   get_exploitation_level (PStr exploit_maturity) = Return NONE).
Proof.
  unfold get_exploitation_level. run_guards.
  destruct (decide (Str.lower exploit_maturity ∈ active_states)) as [Ha|Ha];
    [|destruct (decide (Str.lower exploit_maturity ∈ poc_states)) as [Hp|Hp]];
    rewrite active_states_list in Ha; try rewrite poc_states_list in Hp;
    repeat split; try done.
  intros Hp. exfalso. revert Ha Hp.
  rewrite !elem_of_cons, !elem_of_nil.
  intros [->|[->|[->|[->|[->|[]]]]]]; naive_solver.
Qed.

(** C2: on three texts, [is_automatable] answers [Yes] exactly when,
    without regard to case, the attack complexity is "l", the privileges
    required are "n" and the user interaction is "n"; in every other case
    it answers [No]. *)
Theorem is_automatable_iff (attack_complexity privileges_required
                            user_interaction : string) :
  (is_automatable (PStr attack_complexity) (PStr privileges_required)
                  (PStr user_interaction) = Return YES ↔
   Str.lower attack_complexity = "l" ∧
   Str.lower privileges_required = "n" ∧
   Str.lower user_interaction = "n") ∧
  (is_automatable (PStr attack_complexity) (PStr privileges_required)
                  (PStr user_interaction) = Return NO ↔
   ¬ (Str.lower attack_complexity = "l" ∧
      Str.lower privileges_required = "n" ∧
      Str.lower user_interaction = "n")).
Proof.
  unfold is_automatable. run_guards.
  repeat case_bool_decide; simpl; naive_solver.
Qed.

(** The same condition on the letters themselves: only "l"/"L" and
    "n"/"N" pass. *)
Lemma is_automatable_letters (ac pr ui : string) :
  is_automatable (PStr ac) (PStr pr) (PStr ui) = Return YES ↔
  (ac = "l" ∨ ac = "L") ∧ (pr = "n" ∨ pr = "N") ∧ (ui = "n" ∨ ui = "N").
Proof.
  rewrite <- lower_eq_l, <- !lower_eq_n.
  unfold is_automatable. run_guards.
  repeat case_bool_decide; simpl; naive_solver.
Qed.

(** C9: on three texts, [is_automatable] never raises: it answers [Yes]
    or [No], and a text outside the CVSS domain in any position ("x", the
    empty text) is accepted and answers [No]. *)
Theorem is_automatable_total (attack_complexity privileges_required
                              user_interaction : string) :
  raises (is_automatable (PStr attack_complexity) (PStr privileges_required)
                         (PStr user_interaction)) = false ∧
  (¬ is_metric attack_complexity ∨ ¬ is_metric privileges_required ∨
   ¬ is_metric user_interaction →
   is_automatable (PStr attack_complexity) (PStr privileges_required)
                  (PStr user_interaction) = Return NO) ∧
  is_automatable (PStr "x") (PStr "N") (PStr "N") = Return NO ∧
  is_automatable (PStr "L") (PStr "") (PStr "N") = Return NO.
Proof.
  unfold is_automatable, is_metric. run_guards.
  repeat case_bool_decide; simpl; naive_solver.
Qed.

(** The validation loop stops at the first field, in the order c, i, a,
    whose lower-case form is not a CVSS letter. *)
Lemma check_metrics_spec (c i a : string) :
  (¬ is_metric c →
   check_metrics [("c", c); ("i", i); ("a", a)] = Raise (invalid_metric "c" c)) ∧
  (is_metric c → ¬ is_metric i →
   check_metrics [("c", c); ("i", i); ("a", a)] = Raise (invalid_metric "i" i)) ∧
  (is_metric c → is_metric i → ¬ is_metric a →
   check_metrics [("c", c); ("i", i); ("a", a)] = Raise (invalid_metric "a" a)) ∧
  (is_metric c → is_metric i → is_metric a →
   check_metrics [("c", c); ("i", i); ("a", a)] = Return ()).
Proof.
  rewrite <- !valid_values_metric. simpl.
  repeat case_decide; naive_solver.
Qed.

(** C3: on three texts, [get_technical_impact] raises exactly when one of
    them is, without regard to case, outside "h", "l", "n"; the error is
    the value error of the metric check and it names the first such field
    (c, i, a) with its value; when all three are in the domain the call
    returns. *)
Theorem get_technical_impact_raises_iff (confidentiality integrity
                                         availability : string) :
  (raises (get_technical_impact (PStr confidentiality) (PStr integrity)
                                (PStr availability)) = true ↔
   ¬ is_metric confidentiality ∨ ¬ is_metric integrity ∨
   ¬ is_metric availability) ∧
  (¬ is_metric confidentiality →
   get_technical_impact (PStr confidentiality) (PStr integrity)
                        (PStr availability)
   = Raise (invalid_metric "c" confidentiality)) ∧
  (is_metric confidentiality → ¬ is_metric integrity →
   get_technical_impact (PStr confidentiality) (PStr integrity)
                        (PStr availability)
   = Raise (invalid_metric "i" integrity)) ∧
  (is_metric confidentiality → is_metric integrity → ¬ is_metric availability →
   get_technical_impact (PStr confidentiality) (PStr integrity)
                        (PStr availability)
   = Raise (invalid_metric "a" availability)) ∧
  (is_metric confidentiality → is_metric integrity → is_metric availability →
   raises (get_technical_impact (PStr confidentiality) (PStr integrity)
                                (PStr availability)) = false).
Proof.
  unfold get_technical_impact. run_guards.
  destruct (check_metrics_spec confidentiality integrity availability)
    as (Hc & Hi & Ha & Hok).
  destruct (decide (is_metric confidentiality)) as [Dc|Dc];
    [destruct (decide (is_metric integrity)) as [Di|Di];
     [destruct (decide (is_metric availability)) as [Da|Da]|]|].
  - rewrite (Hok Dc Di Da). cbn. naive_solver.
  - rewrite (Ha Dc Di Da). cbn. naive_solver.
  - rewrite (Hi Dc Di). cbn. naive_solver.
  - rewrite (Hc Dc). cbn. naive_solver.
Qed.

(** C4: on three texts of the CVSS domain, [get_technical_impact] answers
    [Total] exactly when all three are "h" without regard to case, and
    [Partial] otherwise. *)
Theorem get_technical_impact_total_iff (confidentiality integrity
                                        availability : string) :
  is_metric confidentiality → is_metric integrity → is_metric availability →
  (get_technical_impact (PStr confidentiality) (PStr integrity)
                        (PStr availability) = Return TOTAL ↔
   Str.lower confidentiality = "h" ∧ Str.lower integrity = "h" ∧
   Str.lower availability = "h") ∧
  (get_technical_impact (PStr confidentiality) (PStr integrity)
                        (PStr availability) = Return PARTIAL ↔
   ¬ (Str.lower confidentiality = "h" ∧ Str.lower integrity = "h" ∧
      Str.lower availability = "h")).
Proof.
  intros Dc Di Da. unfold get_technical_impact. run_guards.
  rewrite (proj2 (proj2 (proj2
    (check_metrics_spec confidentiality integrity availability))) Dc Di Da).
  run_guards. repeat case_bool_decide; simpl; naive_solver.
Qed.

Lemma get_technical_impact_total_iff_HHL :
  (is_metric "H" ∧ is_metric "L") ∧
  get_technical_impact (PStr "H") (PStr "H") (PStr "H") = Return TOTAL ∧
  get_technical_impact (PStr "H") (PStr "H") (PStr "L") = Return PARTIAL.
Proof.
  assert (Hh : is_metric "H") by (left; reflexivity).
  assert (Hl : is_metric "L") by (right; left; reflexivity).
  split; [by split|]. split.
  - apply (get_technical_impact_total_iff "H" "H" "H" Hh Hh Hh). by vm_compute.
  - apply (get_technical_impact_total_iff "H" "H" "L" Hh Hh Hl).
    vm_compute. by intros (_ & _ & [=]).
Defined.

End classifiers.

(** Instances of the classifier theorems on the inputs the specification
    quotes. *)

Ltac eval_strings :=
  repeat match goal with
  | |- context [Str.lower ?s] =>
      let v := eval vm_compute in (Str.lower s) in
      progress change (Str.lower s) with v
  | |- context [Str.capitalize ?s] =>
      let v := eval vm_compute in (Str.capitalize s) in
      progress change (Str.capitalize s) with v
  end.

(* In the last text the sixth character is the Kelvin sign U+212A. *)
Lemma get_exploitation_level_spec_ACTIVE :
  SsvcConverter.get_exploitation_level (PStr "ACTIVE") = Return ACTIVE ∧
  SsvcConverter.get_exploitation_level (PStr "Proof-of-Concept") = Return POC ∧
  SsvcConverter.get_exploitation_level (PStr "unknown-token") = Return NONE ∧
  SsvcConverter.get_exploitation_level (PStr "attacKed") = Return ACTIVE.
Proof.
  split; [|split; [|split]]; [| | |
    apply (proj1 (get_exploitation_level_spec "attacKed"));
    eval_strings; set_solver].
  - apply (proj1 (get_exploitation_level_spec "ACTIVE")).
    eval_strings. set_solver.
  - apply (proj1 (proj2 (get_exploitation_level_spec "Proof-of-Concept"))).
    eval_strings. set_solver.
  - apply (proj2 (proj2 (get_exploitation_level_spec "unknown-token")));
      eval_strings; rewrite !elem_of_cons, elem_of_nil; naive_solver.
Defined.

Lemma is_automatable_iff_LNN :
  SsvcConverter.is_automatable (PStr "L") (PStr "N") (PStr "N") = Return YES ∧
  SsvcConverter.is_automatable (PStr "H") (PStr "N") (PStr "N") = Return NO.
Proof.
  split.
  - by apply (proj1 (is_automatable_iff "L" "N" "N")).
  - apply (proj2 (is_automatable_iff "H" "N" "N")). vm_compute. by intros ([=] & _).
Defined.

Lemma is_automatable_total_x :
  SsvcConverter.is_automatable (PStr "l") (PStr "n") (PStr "x") = Return NO.
Proof.
  apply (proj1 (proj2 (is_automatable_total "l" "n" "x"))).
  right; right. unfold is_metric. vm_compute. naive_solver.
Defined.

Lemma get_technical_impact_raises_iff_xHH :
  SsvcConverter.get_technical_impact (PStr "x") (PStr "H") (PStr "H")
  = Raise (ValueError
      "Invalid value for metric 'c': 'x'. Must be 'h', 'l', or 'n'.") ∧
  SsvcConverter.get_technical_impact (PStr "n") (PStr "L") (PStr "High")
  = Raise (ValueError
      "Invalid value for metric 'a': 'High'. Must be 'h', 'l', or 'n'.").
Proof.
  assert (Hn : is_metric "n") by (right; right; reflexivity).
  assert (Hl : is_metric "L") by (right; left; reflexivity).
  split.
  - apply (proj1 (proj2 (get_technical_impact_raises_iff "x" "H" "H"))).
    unfold is_metric. vm_compute. naive_solver.
  - apply (proj1 (proj2 (proj2 (proj2
      (get_technical_impact_raises_iff "n" "L" "High")))) Hn Hl).
    unfold is_metric. vm_compute. naive_solver.
Defined.

(** ** Mission impact and the decision path *)

Section decision_path.

Import SsvcConverter.

Lemma capitalize_High s : Str.capitalize s = "High" ↔ Str.lower s = "high".
Proof.
  destruct s as [|c s']; [done|]. cbn [Str.capitalize].
  rewrite lower_cons_eq by done. rewrite <- upper_char_H.
  split; [by intros [= -> ->]|by intros [-> ->]].
Qed.

Lemma capitalize_Medium s : Str.capitalize s = "Medium" ↔ Str.lower s = "medium".
Proof.
  destruct s as [|c s']; [done|]. cbn [Str.capitalize].
  rewrite lower_cons_eq by done. rewrite <- upper_char_M.
  split; [by intros [= -> ->]|by intros [-> ->]].
Qed.

Lemma capitalize_Low s : Str.capitalize s = "Low" ↔ Str.lower s = "low".
Proof.
  destruct s as [|c s']; [done|]. cbn [Str.capitalize].
  rewrite lower_cons_eq by done. rewrite <- upper_char_L.
  split; [by intros [= -> ->]|by intros [-> ->]].
Qed.

(** What the enum call answers, by the text it is given. *)
Lemma MissionImpact_call_spec v :
  (v = "High" → MissionImpact_call v = Return HIGH) ∧
  (v = "Medium" → MissionImpact_call v = Return MEDIUM) ∧
  (v = "Low" → MissionImpact_call v = Return LOW) ∧
  (v ∉ ["High"; "Medium"; "Low"] →
   MissionImpact_call v
   = Raise (ValueError ("'" +:+ v +:+ "' is not a valid MissionImpact"))) ∧
  (∀ m, MissionImpact_call v = Return m → MissionImpact_value m = v).
Proof.
  unfold MissionImpact_call. rewrite !elem_of_cons, elem_of_nil.
  repeat case_decide; subst; repeat split; try done; try naive_solver.
Qed.

(** C6: on a text, the normalisation of the mission impact capitalises it
    and answers the member of that name when the capitalised form is
    High, Medium or Low; on every other text it raises the value error of
    the enumeration.  A member that is answered has the capitalised text
    as its value. *)
Theorem normalize_mission_impact_spec (raw : string) :
  (Str.capitalize raw = "High" →
   normalize_mission_impact (PStr raw) = Return HIGH) ∧
  (Str.capitalize raw = "Medium" →
   normalize_mission_impact (PStr raw) = Return MEDIUM) ∧
  (Str.capitalize raw = "Low" →
   normalize_mission_impact (PStr raw) = Return LOW) ∧
  (Str.capitalize raw ∉ ["High"; "Medium"; "Low"] →
   normalize_mission_impact (PStr raw)
   = Raise (ValueError ("'" +:+ Str.capitalize raw
                        +:+ "' is not a valid MissionImpact"))) ∧
  (∀ m, normalize_mission_impact (PStr raw) = Return m →
        MissionImpact_value m = Str.capitalize raw).
Proof. apply (MissionImpact_call_spec (Str.capitalize raw)). Qed.

Lemma normalize_mission_impact_spec_high :
  normalize_mission_impact (PStr "high") = Return HIGH ∧
  normalize_mission_impact (PStr "urgent")
  = Raise (ValueError "'Urgent' is not a valid MissionImpact").
Proof.
  split.
  - by apply (proj1 (normalize_mission_impact_spec "high")).
  - apply (proj1 (proj2 (proj2 (proj2 (normalize_mission_impact_spec "urgent"))))).
    eval_strings. rewrite !elem_of_cons, elem_of_nil. naive_solver.
Defined.

(** The normalisation succeeds exactly on the texts whose lower-case form
    is a tier name. *)
Lemma normalize_mission_impact_returns s :
  raises (normalize_mission_impact (PStr s)) = false ↔
  Str.lower s ∈ ["high"; "medium"; "low"].
Proof.
  rewrite !elem_of_cons, elem_of_nil.
  rewrite <- capitalize_High, <- capitalize_Medium, <- capitalize_Low.
  unfold normalize_mission_impact. cbn [capitalize_method mbind result_bind].
  unfold MissionImpact_call. repeat case_decide; simpl; naive_solver.
Qed.

(** The decision path is the chain of the four sub-steps. *)
Lemma get_ssvc_decision_path_inv ac pr ui c i a exploit_maturity
      system_context d :
  get_ssvc_decision_path ac pr ui c i a exploit_maturity system_context
  = Return d →
  ∃ exploitation automatable tech_impact mission_impact,
    get_exploitation_level exploit_maturity = Return exploitation ∧
    is_automatable ac pr ui = Return automatable ∧
    get_technical_impact c i a = Return tech_impact ∧
    normalize_mission_impact system_context = Return mission_impact ∧
    d = {|
      path := {[ "Exploitation" := ExploitationLevel_value exploitation;
                 "Automatable" := Automatable_value automatable;
                 "Technical Impact" := TechnicalImpact_value tech_impact;
                 "Mission & Well-being" := MissionImpact_value mission_impact ]};
      action := SsvcAction_value
        (get_final_action exploitation automatable tech_impact mission_impact)
    |}.
Proof.
  unfold get_ssvc_decision_path.
  destruct (get_exploitation_level exploit_maturity) as [e|]; [|done].
  destruct (is_automatable ac pr ui) as [au|]; [|done].
  destruct (get_technical_impact c i a) as [t|]; [|done].
  destruct (normalize_mission_impact system_context) as [m|]; [|done].
  cbn. intros [= <-]. by exists e, au, t, m.
Qed.

(** C10: inside [get_ssvc_decision_path] the mission impact is read
    without regard to case: the normalisation of a text succeeds exactly
    when its lower-case form is "high", "medium" or "low"; whenever the
    three classifiers return, the decision path then returns a decision
    that records under "Mission & Well-being" the capitalised text, which
    is one of High, Medium, Low, and for every other text it raises a
    value error, that of the enumeration. *)
Theorem mission_impact_case_insensitive (s : string) :
  (raises (normalize_mission_impact (PStr s)) = false ↔
   Str.lower s ∈ ["high"; "medium"; "low"]) ∧
  (∀ ac pr ui c i a exploit_maturity d,
     get_ssvc_decision_path ac pr ui c i a exploit_maturity (PStr s)
     = Return d →
     Str.lower s ∈ ["high"; "medium"; "low"] ∧
     path d !! "Mission & Well-being" = Some (Str.capitalize s) ∧
     Str.capitalize s ∈ ["High"; "Medium"; "Low"]) ∧
  (∀ ac pr ui c i a exploit_maturity,
     raises (get_exploitation_level exploit_maturity) = false →
     raises (is_automatable ac pr ui) = false →
     raises (get_technical_impact c i a) = false →
     (Str.lower s ∈ ["high"; "medium"; "low"] →
      ∃ d, get_ssvc_decision_path ac pr ui c i a exploit_maturity (PStr s)
           = Return d ∧
           path d !! "Mission & Well-being" = Some (Str.capitalize s) ∧
           Str.capitalize s ∈ ["High"; "Medium"; "Low"]) ∧
     (Str.lower s ∉ ["high"; "medium"; "low"] →
      ∃ msg, get_ssvc_decision_path ac pr ui c i a exploit_maturity (PStr s)
             = Raise (ValueError msg))).
Proof.
  assert (∀ ac pr ui c i a em d,
     get_ssvc_decision_path ac pr ui c i a em (PStr s) = Return d →
     Str.lower s ∈ ["high"; "medium"; "low"] ∧
     path d !! "Mission & Well-being" = Some (Str.capitalize s) ∧
     Str.capitalize s ∈ ["High"; "Medium"; "Low"]) as Hret.
  { intros ac pr ui c i a em d Hd.
    apply get_ssvc_decision_path_inv in Hd
      as (e & au & t & m & _ & _ & _ & Hm & ->).
    split; [|split].
    - apply normalize_mission_impact_returns. by rewrite Hm.
    - apply (MissionImpact_call_spec (Str.capitalize s)) in Hm as <-.
      by destruct m.
    - apply (MissionImpact_call_spec (Str.capitalize s)) in Hm as <-.
      destruct m; set_solver. }
  split; [apply normalize_mission_impact_returns|]. split; [exact Hret|].
  intros ac pr ui c i a em He Ha Ht. split.
  - intros Hs. apply normalize_mission_impact_returns in Hs.
    assert (∃ d, get_ssvc_decision_path ac pr ui c i a em (PStr s) = Return d)
      as [d Hd].
    { unfold get_ssvc_decision_path.
      destruct (get_exploitation_level em); [|done].
      destruct (is_automatable ac pr ui); [|done].
      destruct (get_technical_impact c i a); [|done].
      destruct (normalize_mission_impact (PStr s)); [|done].
      cbn [mbind result_bind]. eauto. }
    exists d. split; [done|]. by apply (Hret ac pr ui c i a em d).
  - intros Hs. unfold get_ssvc_decision_path.
    destruct (get_exploitation_level em); [|done].
    destruct (is_automatable ac pr ui); [|done].
    destruct (get_technical_impact c i a); [|done].
    cbn [mbind result_bind].
    unfold normalize_mission_impact.
    cbn [capitalize_method mbind result_bind].
    rewrite (proj1 (proj2 (proj2 (proj2
      (MissionImpact_call_spec (Str.capitalize s)))))); [by eexists|].
    rewrite !elem_of_cons, elem_of_nil in Hs |- *.
    rewrite capitalize_High, capitalize_Medium, capitalize_Low. done.
Qed.

Lemma mission_impact_case_insensitive_mEdIuM :
  (∃ d, get_ssvc_decision_path (PStr "L") (PStr "N") (PStr "N")
          (PStr "H") (PStr "H") (PStr "H") (PStr "active") (PStr "HIGH")
        = Return d ∧
        path d !! "Mission & Well-being" = Some "High" ∧
        "High" ∈ ["High"; "Medium"; "Low"]) ∧
  (∃ d, get_ssvc_decision_path (PStr "L") (PStr "N") (PStr "N")
          (PStr "H") (PStr "H") (PStr "H") (PStr "active") (PStr "mEdIuM")
        = Return d ∧
        path d !! "Mission & Well-being" = Some "Medium" ∧
        "Medium" ∈ ["High"; "Medium"; "Low"]) ∧
  (∃ msg, get_ssvc_decision_path (PStr "L") (PStr "N") (PStr "N")
            (PStr "H") (PStr "H") (PStr "H") (PStr "active") (PStr "lowest")
          = Raise (ValueError msg) ∧
          msg = "'Lowest' is not a valid MissionImpact").
Proof.
  split; [|split].
  - apply (proj2 (proj2 (mission_impact_case_insensitive "HIGH"))
             (PStr "L") (PStr "N") (PStr "N") (PStr "H") (PStr "H") (PStr "H")
             (PStr "active")); [reflexivity..|].
    eval_strings. set_solver.
  - apply (proj2 (proj2 (mission_impact_case_insensitive "mEdIuM"))
             (PStr "L") (PStr "N") (PStr "N") (PStr "H") (PStr "H") (PStr "H")
             (PStr "active")); [reflexivity..|].
    eval_strings. set_solver.
  - destruct (proj2 (proj2 (proj2 (mission_impact_case_insensitive "lowest"))
                       (PStr "L") (PStr "N") (PStr "N")
                       (PStr "H") (PStr "H") (PStr "H") (PStr "active")
                       eq_refl eq_refl eq_refl)) as [msg Hmsg].
    { eval_strings. rewrite !elem_of_cons, elem_of_nil. naive_solver. }
    exists msg. split; [exact Hmsg|].
    vm_compute in Hmsg. by injection Hmsg as <-.
Defined.

(** C7: [get_ssvc_decision_path] raises exactly when one of the four
    sub-steps raises; the exception is that of the first sub-step that
    raises, in the order exploitation, automatability, technical impact,
    mission impact, and then nothing is returned; when the four sub-steps
    return, the result is the dictionary of their four values and of the
    value of the action [get_final_action] gives for them. *)
Theorem get_ssvc_decision_path_propagates
    (ac pr ui c i a exploit_maturity system_context : pyobj) :
  (raises (get_ssvc_decision_path ac pr ui c i a exploit_maturity
                                  system_context) = true ↔
   raises (get_exploitation_level exploit_maturity) = true ∨
   raises (is_automatable ac pr ui) = true ∨
   raises (get_technical_impact c i a) = true ∨
   raises (normalize_mission_impact system_context) = true) ∧
  (∀ e, get_exploitation_level exploit_maturity = Raise e →
        get_ssvc_decision_path ac pr ui c i a exploit_maturity system_context
        = Raise e) ∧
  (∀ e, raises (get_exploitation_level exploit_maturity) = false →
        is_automatable ac pr ui = Raise e →
        get_ssvc_decision_path ac pr ui c i a exploit_maturity system_context
        = Raise e) ∧
  (∀ e, raises (get_exploitation_level exploit_maturity) = false →
        raises (is_automatable ac pr ui) = false →
        get_technical_impact c i a = Raise e →
        get_ssvc_decision_path ac pr ui c i a exploit_maturity system_context
        = Raise e) ∧
  (∀ e, raises (get_exploitation_level exploit_maturity) = false →
        raises (is_automatable ac pr ui) = false →
        raises (get_technical_impact c i a) = false →
        normalize_mission_impact system_context = Raise e →
        get_ssvc_decision_path ac pr ui c i a exploit_maturity system_context
        = Raise e) ∧
  (∀ exploitation automatable tech_impact mission_impact,
     get_exploitation_level exploit_maturity = Return exploitation →
     is_automatable ac pr ui = Return automatable →
     get_technical_impact c i a = Return tech_impact →
     normalize_mission_impact system_context = Return mission_impact →
     get_ssvc_decision_path ac pr ui c i a exploit_maturity system_context
     = Return {|
         path := {[ "Exploitation" := ExploitationLevel_value exploitation;
                    "Automatable" := Automatable_value automatable;
                    "Technical Impact" := TechnicalImpact_value tech_impact;
                    "Mission & Well-being" :=
                      MissionImpact_value mission_impact ]};
         action := SsvcAction_value
           (get_final_action exploitation automatable tech_impact
                             mission_impact)
       |}).
Proof.
  unfold get_ssvc_decision_path.
  destruct (get_exploitation_level exploit_maturity) as [ve|xe];
    [|cbn; naive_solver].
  destruct (is_automatable ac pr ui) as [va|xa]; [|cbn; naive_solver].
  destruct (get_technical_impact c i a) as [vt|xt]; [|cbn; naive_solver].
  destruct (normalize_mission_impact system_context) as [vm|xm];
    cbn; naive_solver.
Qed.

(** A row whose confidentiality is missing and whose mission impact is
    not a tier: both sub-steps raise, the first one is reported. *)
Lemma get_ssvc_decision_path_propagates_first :
  get_ssvc_decision_path (PStr "L") (PStr "N") (PStr "N")
                         PNaN (PStr "H") (PStr "H")
                         (PStr "active") (PStr "urgent")
  = Raise (TypeError "confidentiality must be a string.") ∧
  raises (normalize_mission_impact (PStr "urgent")) = true.
Proof.
  split; [|reflexivity].
  by apply (proj1 (proj2 (proj2 (proj2 (get_ssvc_decision_path_propagates
    (PStr "L") (PStr "N") (PStr "N") PNaN (PStr "H") (PStr "H")
    (PStr "active") (PStr "urgent")))))).
Defined.

End decision_path.

(** ** The per-row loop *)

Section per_row.

Import SsvcConverter Main.

(** The exceptions of the sub-steps are all of a class the handler of the
    loop names, as long as the mission impact is a text. *)
Lemma require_str_caught arg_name v e :
  require_str arg_name v = Raise e → caught e = true.
Proof. destruct v; simpl; by intros [= <-]. Qed.

Lemma get_exploitation_level_caught v e :
  get_exploitation_level v = Raise e → caught e = true.
Proof.
  unfold get_exploitation_level.
  destruct (require_str _ v) as [s|x] eqn:Hs; cbn.
  - by repeat case_decide.
  - intros [= <-]. by eapply require_str_caught.
Qed.

Lemma is_automatable_caught ac pr ui e :
  is_automatable ac pr ui = Raise e → caught e = true.
Proof.
  unfold is_automatable.
  destruct ac, pr, ui; cbn; by intros [= <-].
Qed.

Lemma check_metrics_caught args e :
  check_metrics args = Raise e → caught e = true.
Proof.
  induction args as [|[arg_name arg_val] args IH]; simpl; [done|].
  case_decide; [by intros [= <-]|done].
Qed.

Lemma get_technical_impact_caught c i a e :
  get_technical_impact c i a = Raise e → caught e = true.
Proof.
  unfold get_technical_impact.
  destruct c as [c| |], i as [i| |], a as [a| |];
    cbn [require_str mbind result_bind]; try (by intros [= <-]).
  destruct (check_metrics _) as [[]|x] eqn:Hm; cbn.
  - by destruct (_ && _).
  - intros [= <-]. by eapply check_metrics_caught.
Qed.

Lemma normalize_mission_impact_caught s e :
  normalize_mission_impact (PStr s) = Raise e → caught e = true.
Proof.
  unfold normalize_mission_impact, MissionImpact_call. cbn.
  repeat case_decide; try done. by intros [= <-].
Qed.

Lemma get_ssvc_decision_path_caught ac pr ui c i a exploit_maturity s e :
  get_ssvc_decision_path ac pr ui c i a exploit_maturity (PStr s) = Raise e →
  caught e = true.
Proof.
  unfold get_ssvc_decision_path.
  destruct (get_exploitation_level _) as [ve|xe] eqn:He; cbn [mbind result_bind];
    [|intros [= <-]; by eapply get_exploitation_level_caught].
  destruct (is_automatable _ _ _) as [va|xa] eqn:Ha; cbn [mbind result_bind];
    [|intros [= <-]; by eapply is_automatable_caught].
  destruct (get_technical_impact _ _ _) as [vt|xt] eqn:Ht; cbn [mbind result_bind];
    [|intros [= <-]; by eapply get_technical_impact_caught].
  destruct (normalize_mission_impact _) as [vm|xm] eqn:Hm; cbn [mbind result_bind];
    [done|intros [= <-]; by eapply normalize_mission_impact_caught].
Qed.

Lemma getitem_caught {V} (d : gmap string V) key e :
  getitem d key = Raise e → caught e = true.
Proof. unfold getitem. destruct (d !! key); [done|by intros [= <-]]. Qed.

(** Whatever the [try] block raises, the handler catches. *)
Lemma try_row_caught row e : try_row row = Raise e → caught e = true.
Proof.
  unfold try_row.
  destruct (is_None (get row "ac") || isna (get row "ac"));
    cbn [mbind result_bind]; [by intros [= <-]|].
  destruct (isna (get row "exploit_maturity")); cbn [mbind result_bind].
  { destruct (getitem row "Nature Exploit") eqn:Hn; cbn;
      intros [= <-]; [done|by eapply getitem_caught]. }
  unfold get at 1.
  destruct (getitem row "system_context") as [sc|x] eqn:Hsc.
  2:{ unfold getitem in Hsc. destruct (row !! "system_context"); [done|].
      cbn. destruct (getitem row "Criticité") eqn:Hc; cbn;
        intros [= <-]; [done|by eapply getitem_caught]. }
  unfold getitem in Hsc.
  destruct (row !! "system_context") as [sc'|]; [|done].
  injection Hsc as ->. cbn [default].
  destruct sc as [s| |]; cbn [isna mbind result_bind].
  2,3: destruct (getitem row "Criticité") eqn:Hc; cbn;
        intros [= <-]; [done|by eapply getitem_caught].
  repeat match goal with
  | |- context [getitem row ?k] =>
      let H := fresh in
      destruct (getitem row k) eqn:H; cbn [mbind result_bind];
      [|intros [= <-]; by eapply getitem_caught]
  end.
  destruct (get_ssvc_decision_path _ _ _ _ _ _ _ _) as [d|x] eqn:Hd;
    cbn [mbind result_bind];
    [|intros [= <-]; by eapply get_ssvc_decision_path_caught].
  repeat match goal with
  | |- context [getitem (path d) ?k] =>
      let H := fresh in
      destruct (getitem (path d) k) eqn:H; cbn [mbind result_bind];
      [|intros [= <-]; by eapply getitem_caught]
  end.
  done.
Qed.

(** One turn of the loop always appends an entry. *)
Lemma process_row_entry row :
  match try_row row with
  | Return flat_results => process_row row = Return flat_results
  | Raise e => process_row row = Return (error_entry e)
  end.
Proof.
  unfold process_row. destruct (try_row row) as [f|e] eqn:Hr; [done|].
  by rewrite (try_row_caught row e Hr).
Qed.

Lemma process_rows_acc rows results_list :
  ∃ entries,
    process_rows rows results_list = Return (results_list ++ entries)%list ∧
    Forall2 (λ row entry, process_row row = Return entry) rows entries.
Proof.
  revert results_list.
  induction rows as [|row rows IH]; intros results_list; simpl.
  - exists []. by rewrite app_nil_r.
  - assert (∃ entry, process_row row = Return entry) as [entry Hrow].
    { pose proof (process_row_entry row) as Hrow.
      destruct (try_row row); eauto. }
    rewrite Hrow. cbn [mbind result_bind].
    destruct (IH (results_list ++ [entry])%list) as (entries & -> & Hall).
    exists (entry :: entries). rewrite <- app_assoc. split; [done|].
    by constructor.
Qed.

(** A row that goes through is the flattened decision of the converter on
    the cells of the row. *)
Lemma try_row_Return row flat_results :
  try_row row = Return flat_results →
  ∃ ac pr ui c i a exploit_maturity system_context d,
    row !! "ac" = Some ac ∧ row !! "pr" = Some pr ∧ row !! "ui" = Some ui ∧
    row !! "c" = Some c ∧ row !! "i" = Some i ∧ row !! "a" = Some a ∧
    row !! "exploit_maturity" = Some exploit_maturity ∧
    row !! "system_context" = Some system_context ∧
    get_ssvc_decision_path ac pr ui c i a exploit_maturity system_context
    = Return d ∧
    flat_results !! "SSVC Exploitation" = path d !! "Exploitation" ∧
    flat_results !! "SSVC Automatable" = path d !! "Automatable" ∧
    flat_results !! "SSVC Technical Impact" = path d !! "Technical Impact" ∧
    flat_results !! "SSVC Action" = Some (action d).
Proof.
  unfold try_row.
  destruct (_ || _); cbn [mbind result_bind]; [done|].
  destruct (isna (get row "exploit_maturity")); cbn [mbind result_bind];
    [by destruct (getitem row "Nature Exploit")|].
  destruct (isna (get row "system_context")); cbn [mbind result_bind];
    [by destruct (getitem row "Criticité")|].
  unfold getitem.
  destruct (row !! "ac") as [ac|]; cbn [mbind result_bind]; [|done].
  destruct (row !! "pr") as [pr|]; cbn [mbind result_bind]; [|done].
  destruct (row !! "ui") as [ui|]; cbn [mbind result_bind]; [|done].
  destruct (row !! "c") as [c|]; cbn [mbind result_bind]; [|done].
  destruct (row !! "i") as [i|]; cbn [mbind result_bind]; [|done].
  destruct (row !! "a") as [a|]; cbn [mbind result_bind]; [|done].
  destruct (row !! "exploit_maturity") as [em|];
    cbn [mbind result_bind]; [|done].
  destruct (row !! "system_context") as [sc|];
    cbn [mbind result_bind]; [|done].
  destruct (get_ssvc_decision_path ac pr ui c i a em sc) as [d|] eqn:Hd;
    cbn [mbind result_bind]; [|done].
  destruct (path d !! "Exploitation") as [ve|] eqn:Hve;
    cbn [mbind result_bind]; [|done].
  destruct (path d !! "Automatable") as [va|] eqn:Hva;
    cbn [mbind result_bind]; [|done].
  destruct (path d !! "Technical Impact") as [vt|] eqn:Hvt;
    cbn [mbind result_bind]; [|done].
  intros [= <-].
  exists ac, pr, ui, c, i, a, em, sc, d. repeat split;
    first [exact Hd|by rewrite ?Hve, ?Hva, ?Hvt].
Qed.

Lemma try_row_Return_not_error row flat_results :
  try_row row = Return flat_results → is_error_entry flat_results = false.
Proof.
  intros (ac & pr & ui & c & i & a & em & sc & d & _ & _ & _ & _ & _ & _ & _
          & _ & Hd & He & _)%try_row_Return.
  apply get_ssvc_decision_path_inv in Hd as (e & au & t & m & _ & _ & _ & _ & ->).
  unfold is_error_entry. rewrite He. by destruct e.
Qed.

(** The loop over a list of rows always runs to its end and leaves
    one entry per row, in the order of the rows: the flattened decision
    of a row that goes through, and for a row whose evaluation raises the
    error marker, whose action is the text "Erreur de traitement: "
    followed by the message of the exception.  No row stops the loop. *)
Lemma process_rows_one_entry_per_row (rows : list (gmap string pyobj)) :
  ∃ results_list,
    process_rows rows [] = Return results_list ∧
    length results_list = length rows ∧
    ∀ k row, rows !! k = Some row →
      match try_row row with
      | Return flat_results =>
          results_list !! k = Some flat_results ∧
          is_error_entry flat_results = false
      | Raise e =>
          results_list !! k = Some (error_entry e) ∧
          is_error_entry (error_entry e) = true ∧
          error_entry e !! "SSVC Action"
          = Some ("Erreur de traitement: " +:+ exn_str e)
      end.
Proof.
  destruct (process_rows_acc rows []) as (entries & Hrun & Hall).
  exists entries. split; [done|]. split; [symmetry; by eapply Forall2_length|].
  intros k row Hk.
  destruct (Forall2_lookup_l _ _ _ _ _ Hall Hk) as (entry & Hentry & Hrow).
  pose proof (process_row_entry row) as Hspec.
  destruct (try_row row) as [f|e] eqn:Htry.
  - rewrite Hspec in Hrow. injection Hrow as <-.
    split; [done|]. by eapply try_row_Return_not_error.
  - rewrite Hspec in Hrow. injection Hrow as <-. done.
Qed.

End per_row.

(** * Further properties of the converter *)

(** ** The decision tree: urgency *)

Section urgency.

Import SsvcConverter.

(** X1: [get_final_action] is monotone for the orders of urgency: a more
    active exploitation, an automatable attack, a total technical impact
    or a higher mission impact never gives a less pressing action. *)
Theorem get_final_action_monotone e e' a a' t t' m m' :
  (ExploitationLevel_rank e ≤ ExploitationLevel_rank e')%nat →
  (Automatable_rank a ≤ Automatable_rank a')%nat →
  (TechnicalImpact_rank t ≤ TechnicalImpact_rank t')%nat →
  (MissionImpact_rank m ≤ MissionImpact_rank m')%nat →
  (SsvcAction_rank (get_final_action e a t m)
   ≤ SsvcAction_rank (get_final_action e' a' t' m'))%nat.
Proof.
  destruct e, e'; simpl; intros He; try lia;
    destruct a, a'; simpl; intros Ha; try lia;
    destruct t, t'; simpl; intros Ht; try lia;
    destruct m, m'; simpl; intros Hm; lia.
Qed.

Lemma get_final_action_monotone_POC_to_ACTIVE :
  (SsvcAction_rank (get_final_action POC NO TOTAL MEDIUM)
   ≤ SsvcAction_rank (get_final_action ACTIVE NO TOTAL HIGH))%nat.
Proof.
  apply (get_final_action_monotone POC ACTIVE NO NO TOTAL TOTAL MEDIUM HIGH);
    simpl; lia.
Defined.

(** X2: which inputs give the two ends of the scale.  The action is Act
    exactly when the exploitation is active and the attack is automatable
    or the impact is total on a mission that is not low; it is Track
    exactly when there is no exploitation, except for a total impact on
    a high mission; a proof of concept gives Attend or Track* only. *)
Theorem get_final_action_extremes e a t m :
  (get_final_action e a t m = ACT ↔
   e = ACTIVE ∧ (a = YES ∨ (t = TOTAL ∧ m ≠ LOW))) ∧
  (get_final_action e a t m = TRACK ↔
   e = NONE ∧ ¬ (t = TOTAL ∧ m = HIGH)) ∧
  (e = POC →
   get_final_action e a t m = ATTEND ∨ get_final_action e a t m = TRACK_STAR).
Proof. destruct e, a, t, m; simpl; naive_solver. Qed.

Lemma get_final_action_extremes_POC :
  get_final_action POC YES TOTAL HIGH = ATTEND ∨
  get_final_action POC YES TOTAL HIGH = TRACK_STAR.
Proof. by apply (proj2 (proj2 (get_final_action_extremes POC YES TOTAL HIGH))). Defined.

End urgency.

(** ** Guards and exceptions *)

Section guards.

Import SsvcConverter.

(** X3: [is_automatable] raises exactly when one of its arguments is not a
    text, and the type error names the first such argument in the order of
    the signature. *)
Theorem is_automatable_raises_iff ac pr ui :
  (raises (is_automatable ac pr ui) = true ↔
   isinstance_str ac = false ∨ isinstance_str pr = false ∨
   isinstance_str ui = false) ∧
  (isinstance_str ac = false →
   is_automatable ac pr ui
   = Raise (TypeError "attack_complexity must be a string.")) ∧
  (isinstance_str ac = true → isinstance_str pr = false →
   is_automatable ac pr ui
   = Raise (TypeError "privileges_required must be a string.")) ∧
  (isinstance_str ac = true → isinstance_str pr = true →
   isinstance_str ui = false →
   is_automatable ac pr ui
   = Raise (TypeError "user_interaction must be a string.")).
Proof. destruct ac, pr, ui; cbn; naive_solver. Qed.

Lemma is_automatable_raises_iff_NaN :
  is_automatable (PStr "L") PNaN PNone
  = Raise (TypeError "privileges_required must be a string.").
Proof.
  by apply (proj1 (proj2 (proj2 (is_automatable_raises_iff (PStr "L") PNaN PNone)))).
Defined.

(** X4: in [get_technical_impact] the type guard comes before the check of
    the metric values: when an argument is not a text the call raises the
    type error naming the first such argument, also when an earlier
    argument is a text outside the CVSS domain. *)
Theorem get_technical_impact_type_first c i a :
  (isinstance_str c = false →
   get_technical_impact c i a
   = Raise (TypeError "confidentiality must be a string.")) ∧
  (isinstance_str c = true → isinstance_str i = false →
   get_technical_impact c i a
   = Raise (TypeError "integrity must be a string.")) ∧
  (isinstance_str c = true → isinstance_str i = true →
   isinstance_str a = false →
   get_technical_impact c i a
   = Raise (TypeError "availability must be a string.")).
Proof. destruct c, i, a; cbn; naive_solver. Qed.

Lemma get_technical_impact_type_first_x :
  get_technical_impact (PStr "x") (PStr "H") PNaN
  = Raise (TypeError "availability must be a string.").
Proof.
  by apply (proj2 (proj2 (get_technical_impact_type_first
                            (PStr "x") (PStr "H") PNaN))).
Defined.








End guards.

(** ** The decision path on texts *)

Section on_texts.

Import SsvcConverter.

Lemma get_exploitation_level_text s :
  ∃ x, get_exploitation_level (PStr s) = Return x.
Proof.
  unfold get_exploitation_level. cbn [require_str mbind result_bind].
  cbv zeta. repeat case_decide; eauto.
Qed.

Lemma is_automatable_text ac pr ui :
  ∃ x, is_automatable (PStr ac) (PStr pr) (PStr ui) = Return x.
Proof. unfold is_automatable. cbn. eauto. Qed.

(** On texts the technical impact returns exactly in the CVSS domain, and
    what it returns is fixed by the lower-case forms. *)
Lemma get_technical_impact_text_Return c i a x :
  get_technical_impact (PStr c) (PStr i) (PStr a) = Return x ↔
  is_metric c ∧ is_metric i ∧ is_metric a ∧
  (x = TOTAL ↔
   Str.lower c = "h" ∧ Str.lower i = "h" ∧ Str.lower a = "h").
Proof.
  unfold get_technical_impact. cbn [require_str mbind result_bind].
  destruct (check_metrics_spec c i a) as (Hc & Hi & Ha & Hok).
  destruct (decide (is_metric c)) as [Dc|Dc];
    [destruct (decide (is_metric i)) as [Di|Di];
     [destruct (decide (is_metric a)) as [Da|Da]|]|].
  - rewrite (Hok Dc Di Da). cbn [mbind result_bind]. cbv zeta.
    repeat case_bool_decide; cbn [andb]; destruct x; naive_solver.
  - rewrite (Ha Dc Di Da). cbn. naive_solver.
  - rewrite (Hi Dc Di). cbn. naive_solver.
  - rewrite (Hc Dc). cbn. naive_solver.
Qed.

Lemma get_technical_impact_text_raises c i a :
  raises (get_technical_impact (PStr c) (PStr i) (PStr a)) = true ↔
  ¬ is_metric c ∨ ¬ is_metric i ∨ ¬ is_metric a.
Proof.
  destruct (get_technical_impact (PStr c) (PStr i) (PStr a)) as [x|e] eqn:Hr;
    cbn [raises].
  - apply get_technical_impact_text_Return in Hr. naive_solver.
  - split; [intros _|done].
    destruct (decide (is_metric c)); [|by left].
    destruct (decide (is_metric i)); [|by right; left].
    destruct (decide (is_metric a)); [|by right; right].
    exfalso.
    assert (∃ x, get_technical_impact (PStr c) (PStr i) (PStr a) = Return x)
      as [x Hx]; [|congruence].
    destruct (decide (Str.lower c = "h" ∧ Str.lower i = "h"
                      ∧ Str.lower a = "h")).
    + exists TOTAL. apply get_technical_impact_text_Return. naive_solver.
    + exists PARTIAL. apply get_technical_impact_text_Return. naive_solver.
Qed.

Lemma normalize_mission_impact_text_raises s :
  raises (normalize_mission_impact (PStr s)) = true ↔
  Str.lower s ∉ ["high"; "medium"; "low"].
Proof.
  rewrite <- normalize_mission_impact_returns.
  destruct (raises _); naive_solver.
Qed.

(** X6: when the eight inputs are texts, [get_ssvc_decision_path] raises
    exactly when one of the three impact metrics is outside "h", "l", "n"
    or the system context is not one of high, medium, low, all without
    regard to case.  No text given for the attack complexity, the
    privileges, the user interaction or the exploit maturity makes it
    raise. *)
Theorem get_ssvc_decision_path_texts_raise_iff
    (ac pr ui c i a exploit_maturity system_context : string) :
  raises (get_ssvc_decision_path (PStr ac) (PStr pr) (PStr ui)
            (PStr c) (PStr i) (PStr a)
            (PStr exploit_maturity) (PStr system_context)) = true ↔
  ¬ is_metric c ∨ ¬ is_metric i ∨ ¬ is_metric a ∨
  Str.lower system_context ∉ ["high"; "medium"; "low"].
Proof.
  pose proof (get_technical_impact_text_raises c i a) as Ht.
  pose proof (normalize_mission_impact_text_raises system_context) as Hm.
  unfold get_ssvc_decision_path.
  destruct (get_exploitation_level_text exploit_maturity) as [ve ->].
  destruct (is_automatable_text ac pr ui) as [va ->].
  cbn [mbind result_bind].
  destruct (get_technical_impact _ _ _) as [vt|xt];
    cbn [mbind result_bind raises]; [|naive_solver].
  destruct (normalize_mission_impact _) as [vm|xm];
    cbn [mbind result_bind raises]; naive_solver.
Qed.

Lemma upper_lower_char c :
  Str.upper_char (Str.lower_char c) = Str.upper_char c.
Proof. destruct c as [[] [] [] [] [] [] [] []]; reflexivity. Qed.

Lemma is_metric_lower s : is_metric (Str.lower s) ↔ is_metric s.
Proof. unfold is_metric. by rewrite lower_idemp. Qed.

Lemma get_exploitation_level_lower s :
  get_exploitation_level (PStr (Str.lower s)) = get_exploitation_level (PStr s).
Proof.
  unfold get_exploitation_level. cbn [require_str mbind result_bind].
  by rewrite lower_idemp.
Qed.

Lemma is_automatable_lower ac pr ui :
  is_automatable (PStr (Str.lower ac)) (PStr (Str.lower pr)) (PStr (Str.lower ui))
  = is_automatable (PStr ac) (PStr pr) (PStr ui).
Proof.
  unfold is_automatable. cbn [require_str mbind result_bind].
  by rewrite !lower_idemp.
Qed.

(** What the normalisation returns is fixed by the lower-case form. *)
Lemma normalize_mission_impact_Return s m :
  normalize_mission_impact (PStr s) = Return m ↔
  Str.lower s = Str.lower (MissionImpact_value m).
Proof.
  pose proof (capitalize_High s) as HH.
  pose proof (capitalize_Medium s) as HM.
  pose proof (capitalize_Low s) as HL.
  unfold normalize_mission_impact, MissionImpact_call.
  cbn [capitalize_method mbind result_bind].
  destruct (decide (Str.capitalize s = "High")) as [E1|E1];
    [|destruct (decide (Str.capitalize s = "Medium")) as [E2|E2];
      [|destruct (decide (Str.capitalize s = "Low")) as [E3|E3]]];
    destruct m; cbn [MissionImpact_value];
    try change (Str.lower "High") with "high";
    try change (Str.lower "Medium") with "medium";
    try change (Str.lower "Low") with "low";
    rewrite ?HH in E1; try rewrite HM in E2; try rewrite HL in E3;
    split; intros H; congruence.
Qed.

Lemma normalize_mission_impact_lower_Return s m :
  normalize_mission_impact (PStr (Str.lower s)) = Return m ↔
  normalize_mission_impact (PStr s) = Return m.
Proof. by rewrite !normalize_mission_impact_Return, lower_idemp. Qed.

Lemma get_technical_impact_lower_Return c i a x :
  get_technical_impact (PStr (Str.lower c)) (PStr (Str.lower i))
                       (PStr (Str.lower a)) = Return x ↔
  get_technical_impact (PStr c) (PStr i) (PStr a) = Return x.
Proof.
  rewrite !get_technical_impact_text_Return.
  by rewrite !is_metric_lower, !lower_idemp.
Qed.

(** X7: the converter reads its texts without regard to case: putting the
    eight texts in lower case changes neither whether
    [get_ssvc_decision_path] raises nor the decision it returns. *)
Theorem get_ssvc_decision_path_lower
    (ac pr ui c i a exploit_maturity system_context : string) :
  (∀ d,
     get_ssvc_decision_path
       (PStr (Str.lower ac)) (PStr (Str.lower pr)) (PStr (Str.lower ui))
       (PStr (Str.lower c)) (PStr (Str.lower i)) (PStr (Str.lower a))
       (PStr (Str.lower exploit_maturity)) (PStr (Str.lower system_context))
     = Return d ↔
     get_ssvc_decision_path (PStr ac) (PStr pr) (PStr ui)
       (PStr c) (PStr i) (PStr a)
       (PStr exploit_maturity) (PStr system_context) = Return d) ∧
  raises (get_ssvc_decision_path
       (PStr (Str.lower ac)) (PStr (Str.lower pr)) (PStr (Str.lower ui))
       (PStr (Str.lower c)) (PStr (Str.lower i)) (PStr (Str.lower a))
       (PStr (Str.lower exploit_maturity)) (PStr (Str.lower system_context)))
  = raises (get_ssvc_decision_path (PStr ac) (PStr pr) (PStr ui)
       (PStr c) (PStr i) (PStr a)
       (PStr exploit_maturity) (PStr system_context)).
Proof.
  assert (∀ d,
     get_ssvc_decision_path
       (PStr (Str.lower ac)) (PStr (Str.lower pr)) (PStr (Str.lower ui))
       (PStr (Str.lower c)) (PStr (Str.lower i)) (PStr (Str.lower a))
       (PStr (Str.lower exploit_maturity)) (PStr (Str.lower system_context))
     = Return d ↔
     get_ssvc_decision_path (PStr ac) (PStr pr) (PStr ui)
       (PStr c) (PStr i) (PStr a)
       (PStr exploit_maturity) (PStr system_context) = Return d) as Hret.
  { intros d. unfold get_ssvc_decision_path.
    rewrite get_exploitation_level_lower, is_automatable_lower.
    destruct (get_exploitation_level _) as [ve|]; [|done].
    destruct (is_automatable _ _ _) as [va|]; [|done].
    cbn [mbind result_bind].
    pose proof (get_technical_impact_lower_Return c i a) as Ht.
    pose proof (normalize_mission_impact_lower_Return system_context) as Hm.
    destruct (get_technical_impact (PStr (Str.lower c)) _ _) as [vt|xt];
      destruct (get_technical_impact (PStr c) _ _) as [vt'|xt'];
      cbn [mbind result_bind].
    - assert (vt' = vt) as -> by (by injection (proj1 (Ht vt) eq_refl)).
      destruct (normalize_mission_impact (PStr (Str.lower system_context)))
        as [vm|xm];
        destruct (normalize_mission_impact (PStr system_context))
        as [vm'|xm']; cbn [mbind result_bind].
      + assert (vm' = vm) as -> by (by injection (proj1 (Hm vm) eq_refl)).
        done.
      + by pose proof (proj1 (Hm vm) eq_refl).
      + by pose proof (proj2 (Hm vm') eq_refl).
      + done.
    - by pose proof (proj1 (Ht vt) eq_refl).
    - by pose proof (proj2 (Ht vt') eq_refl).
    - done. }
  split; [exact Hret|].
  destruct (get_ssvc_decision_path (PStr (Str.lower ac)) _ _ _ _ _ _ _)
    as [d|e] eqn:E1;
    destruct (get_ssvc_decision_path (PStr ac) _ _ _ _ _ _ _)
    as [d'|e'] eqn:E2; cbn [raises]; try done.
  - by pose proof (proj1 (Hret d) eq_refl).
  - by pose proof (proj2 (Hret d') eq_refl).
Qed.

(** X8: a decision that is returned has exactly the four keys Exploitation,
    Automatable, Technical Impact and Mission & Well-being in its path,
    each with a value of its enumeration, and an action that is one of
    Act, Attend, Track* and Track. *)
Theorem get_ssvc_decision_path_shape ac pr ui c i a exploit_maturity
    system_context d :
  get_ssvc_decision_path ac pr ui c i a exploit_maturity system_context
  = Return d →
  dom (path d) = ({[ "Exploitation"; "Automatable"; "Technical Impact";
                     "Mission & Well-being" ]} : gset string) ∧
  (∃ x, path d !! "Exploitation" = Some x ∧ x ∈ ["Active"; "PoC"; "None"]) ∧
  (∃ x, path d !! "Automatable" = Some x ∧ x ∈ ["Yes"; "No"]) ∧
  (∃ x, path d !! "Technical Impact" = Some x ∧ x ∈ ["Total"; "Partial"]) ∧
  (∃ x, path d !! "Mission & Well-being" = Some x ∧
        x ∈ ["High"; "Medium"; "Low"]) ∧
  action d ∈ ["Act"; "Attend"; "Track*"; "Track"].
Proof.
  intros (e & au & t & m & _ & _ & _ & _ & ->)%get_ssvc_decision_path_inv.
  cbn [path action]. split; [|repeat split].
  - rewrite !dom_insert_L, dom_singleton_L. set_solver.
  - exists (ExploitationLevel_value e). split; [done|]. destruct e; set_solver.
  - exists (Automatable_value au). split; [done|]. destruct au; set_solver.
  - exists (TechnicalImpact_value t). split; [done|]. destruct t; set_solver.
  - exists (MissionImpact_value m). split; [done|]. destruct m; set_solver.
  - destruct (get_final_action e au t m); set_solver.
Qed.

Lemma get_ssvc_decision_path_shape_sample :
  ∃ d,
    get_ssvc_decision_path (PStr "L") (PStr "N") (PStr "N")
                           (PStr "H") (PStr "H") (PStr "H")
                           (PStr "active") (PStr "low") = Return d ∧
    action d ∈ ["Act"; "Attend"; "Track*"; "Track"].
Proof.
  eexists. split; [reflexivity|].
  eapply (get_ssvc_decision_path_shape (PStr "L") (PStr "N") (PStr "N")
            (PStr "H") (PStr "H") (PStr "H") (PStr "active") (PStr "low")).
  reflexivity.
Defined.

End on_texts.

(** * Further properties of the loop of [main.py] *)

Section rows.

Import SsvcConverter Main.

Lemma get_ssvc_decision_path_Return_texts ac pr ui c i a exploit_maturity
    system_context d :
  get_ssvc_decision_path ac pr ui c i a exploit_maturity system_context
  = Return d →
  ∃ sac spr sui sc si sa sem ssc,
    ac = PStr sac ∧ pr = PStr spr ∧ ui = PStr sui ∧
    c = PStr sc ∧ i = PStr si ∧ a = PStr sa ∧
    exploit_maturity = PStr sem ∧ system_context = PStr ssc.
Proof.
  intros (ve & va & vt & vm & He & Ha & Ht & Hm & _)%get_ssvc_decision_path_inv.
  destruct exploit_maturity as [sem| |]; try done.
  destruct ac as [sac| |], pr as [spr| |], ui as [sui| |]; try done.
  destruct c as [sc| |], i as [si| |], a as [sa| |]; try done.
  destruct system_context as [ssc| |]; try done.
  by exists sac, spr, sui, sc, si, sa, sem, ssc.
Qed.

Lemma get_ssvc_decision_path_texts_Return
    (ac pr ui c i a exploit_maturity system_context : string) :
  is_metric c → is_metric i → is_metric a →
  Str.lower system_context ∈ ["high"; "medium"; "low"] →
  ∃ d, get_ssvc_decision_path (PStr ac) (PStr pr) (PStr ui)
         (PStr c) (PStr i) (PStr a)
         (PStr exploit_maturity) (PStr system_context) = Return d.
Proof.
  intros Hc Hi Ha Hm. unfold get_ssvc_decision_path.
  destruct (get_exploitation_level_text exploit_maturity) as [ve ->].
  destruct (is_automatable_text ac pr ui) as [va ->].
  cbn [mbind result_bind].
  destruct (get_technical_impact (PStr c) (PStr i) (PStr a)) as [vt|xt] eqn:Ht.
  2:{ assert (raises (get_technical_impact (PStr c) (PStr i) (PStr a)) = true)
        as Hr by (by rewrite Ht).
      apply get_technical_impact_text_raises in Hr. naive_solver. }
  apply normalize_mission_impact_returns in Hm.
  destruct (normalize_mission_impact (PStr system_context)) as [vm|xm];
    [|done].
  cbn [mbind result_bind]. eauto.
Qed.

Lemma error_entry_is_error e : is_error_entry (error_entry e) = true.
Proof. reflexivity. Qed.

(** X9: a row leaves an entry that is not an error marker exactly when its
    eight cells ac, pr, ui, c, i, a, exploit_maturity and system_context
    are present and are texts, the three impact metrics are in the CVSS
    domain and the system context is high, medium or low, without regard
    to case. *)
Theorem entry_of_not_error_iff (row : gmap string pyobj) :
  is_error_entry (entry_of row) = false ↔
  ∃ ac pr ui c i a exploit_maturity system_context : string,
    row !! "ac" = Some (PStr ac) ∧ row !! "pr" = Some (PStr pr) ∧
    row !! "ui" = Some (PStr ui) ∧ row !! "c" = Some (PStr c) ∧
    row !! "i" = Some (PStr i) ∧ row !! "a" = Some (PStr a) ∧
    row !! "exploit_maturity" = Some (PStr exploit_maturity) ∧
    row !! "system_context" = Some (PStr system_context) ∧
    is_metric c ∧ is_metric i ∧ is_metric a ∧
    Str.lower system_context ∈ ["high"; "medium"; "low"].
Proof.
  unfold entry_of. split.
  - destruct (try_row row) as [f|e] eqn:Hrow;
      [intros _|by rewrite error_entry_is_error].
    apply try_row_Return in Hrow
      as (ac & pr & ui & c & i & a & em & sc & d & Hac & Hpr & Hui & Hc & Hi
          & Ha & Hem & Hsc & Hd & _).
    destruct (get_ssvc_decision_path_Return_texts _ _ _ _ _ _ _ _ _ Hd)
      as (sac & spr & sui & sc' & si & sa & sem & ssc
          & -> & -> & -> & -> & -> & -> & -> & ->).
    exists sac, spr, sui, sc', si, sa, sem, ssc.
    repeat (split; [done|]).
    assert (raises (get_ssvc_decision_path (PStr sac) (PStr spr) (PStr sui)
              (PStr sc') (PStr si) (PStr sa) (PStr sem) (PStr ssc)) = false)
      as Hr by (by rewrite Hd).
    apply get_ssvc_decision_path_inv in Hd
      as (ve & va & vt & vm & _ & _ & Ht & Hm & _).
    apply get_technical_impact_text_Return in Ht as (? & ? & ? & _).
    repeat (split; [done|]).
    apply normalize_mission_impact_returns. by rewrite Hm.
  - intros (ac & pr & ui & c & i & a & em & sc & Hac & Hpr & Hui & Hc & Hi
            & Ha & Hem & Hsc & Mc & Mi & Ma & Msc).
    destruct (get_ssvc_decision_path_texts_Return ac pr ui c i a em sc
                Mc Mi Ma Msc) as [d Hd].
    assert (∃ f, try_row row = Return f) as [f Hf].
    { unfold try_row, get, getitem.
      rewrite Hac, Hpr, Hui, Hc, Hi, Ha, Hem, Hsc.
      cbn [default is_None isna orb mbind result_bind]. rewrite Hd.
      apply get_ssvc_decision_path_inv in Hd as (ve & va & vt & vm & _ & _ & _ & _ & ->).
      cbn [mbind result_bind path]. eauto. }
    rewrite Hf. by eapply try_row_Return_not_error.
Qed.

(** The flattened decision, as a dictionary. *)
Lemma try_row_Return_flat row flat_results :
  try_row row = Return flat_results →
  ∃ exploitation automatable tech_impact final_action : string,
    flat_results = {[ "SSVC Exploitation" := exploitation;
                      "SSVC Automatable" := automatable;
                      "SSVC Technical Impact" := tech_impact;
                      "SSVC Action" := final_action ]}.
Proof.
  unfold try_row.
  destruct (_ || _); cbn [mbind result_bind]; [done|].
  destruct (isna (get row "exploit_maturity")); cbn [mbind result_bind];
    [by destruct (getitem row "Nature Exploit")|].
  destruct (isna (get row "system_context")); cbn [mbind result_bind];
    [by destruct (getitem row "Criticité")|].
  repeat match goal with
  | |- context [getitem row ?k] =>
      destruct (getitem row k); cbn [mbind result_bind]; [|done]
  end.
  destruct (get_ssvc_decision_path _ _ _ _ _ _ _ _) as [d|];
    cbn [mbind result_bind]; [|done].
  repeat match goal with
  | |- context [getitem (path d) ?k] =>
      destruct (getitem (path d) k); cbn [mbind result_bind]; [|done]
  end.
  intros [= <-]. eauto.
Qed.

(** X10: every entry of the output, decision or error marker, has exactly
    the four columns SSVC Exploitation, SSVC Automatable, SSVC Technical
    Impact and SSVC Action; the mission impact of the decision path is not
    carried over. *)
Theorem entry_of_columns (row : gmap string pyobj) :
  dom (entry_of row)
  = ({[ "SSVC Exploitation"; "SSVC Automatable"; "SSVC Technical Impact";
        "SSVC Action" ]} : gset string).
Proof.
  unfold entry_of. destruct (try_row row) as [f|e] eqn:Hrow.
  - apply try_row_Return_flat in Hrow as (x & y & z & w & ->).
    rewrite !dom_insert_L, dom_singleton_L. set_solver.
  - unfold error_entry. rewrite !dom_insert_L, dom_singleton_L. set_solver.
Qed.

Lemma process_row_entry_of row : process_row row = Return (entry_of row).
Proof.
  pose proof (process_row_entry row) as H. unfold entry_of.
  by destruct (try_row row).
Qed.

Lemma process_rows_entry_of rows results_list :
  process_rows rows results_list
  = Return (results_list ++ (entry_of <$> rows))%list.
Proof.
  revert results_list.
  induction rows as [|row rows IH]; intros results_list; simpl.
  - by rewrite app_nil_r.
  - rewrite process_row_entry_of. cbn [mbind result_bind].
    by rewrite IH, <- app_assoc.
Qed.

(** X11: the entry of a row depends on that row alone: the loop returns
    the list of the entries of its rows, so that the output of two batches
    put end to end is the output of the first followed by the output of
    the second. *)
Theorem process_rows_app (rows1 rows2 : list (gmap string pyobj)) :
  process_rows (rows1 ++ rows2) []
  = Return ((entry_of <$> rows1) ++ (entry_of <$> rows2))%list ∧
  process_rows rows1 [] = Return (entry_of <$> rows1) ∧
  process_rows rows2 (entry_of <$> rows1)
  = Return ((entry_of <$> rows1) ++ (entry_of <$> rows2))%list.
Proof.
  rewrite !process_rows_entry_of. by rewrite fmap_app.
Qed.

(** X12: in the [try] block the checks come in a fixed order, and the
    cause the marker carries is that of the first one that fails: a
    missing or empty ac gives the message on CVSS data whatever the other
    cells hold; with ac in place, an empty exploit_maturity gives the
    message on the nature of the exploit with the raw cell; with both in
    place, an empty system_context gives the message on the criticality
    with the raw cell. *)
Theorem entry_of_first_cause (row : gmap string pyobj) :
  (isna (get row "ac") = true →
   entry_of row !! "SSVC Action"
   = Some "Erreur de traitement: Données CVSS manquantes ou mal formatées") ∧
  (∀ raw, isna (get row "ac") = false →
     isna (get row "exploit_maturity") = true →
     row !! "Nature Exploit" = Some raw →
     entry_of row !! "SSVC Action"
     = Some ("Erreur de traitement: Nature Exploit non reconnue: '"
             +:+ format raw +:+ "'")) ∧
  (∀ raw, isna (get row "ac") = false →
     isna (get row "exploit_maturity") = false →
     isna (get row "system_context") = true →
     row !! "Criticité" = Some raw →
     entry_of row !! "SSVC Action"
     = Some ("Erreur de traitement: Criticité non reconnue: '"
             +:+ format raw +:+ "'")).
Proof.
  unfold entry_of, try_row. split; [|split].
  - intros ->. rewrite orb_true_r. reflexivity.
  - intros raw Hac -> Hraw.
    assert (is_None (get row "ac") = false) as ->
      by (by destruct (get row "ac")).
    rewrite Hac. unfold getitem. rewrite Hraw. reflexivity.
  - intros raw Hac -> -> Hraw.
    assert (is_None (get row "ac") = false) as ->
      by (by destruct (get row "ac")).
    rewrite Hac. unfold getitem. rewrite Hraw. reflexivity.
Qed.

Lemma entry_of_first_cause_sample :
  entry_of (<["system_context" := PNaN]> (sample_row "poc" "high"))
    !! "SSVC Action"
  = Some "Erreur de traitement: Criticité non reconnue: 'XX'".
Proof.
  by apply (proj2 (proj2 (entry_of_first_cause
              (<["system_context" := PNaN]> (sample_row "poc" "high"))))
            (PStr "XX")).
Defined.

End rows.

(** * Properties of the preparation of the columns *)

Section preparation.

Import SsvcConverter Main Prepare.

Lemma lower_char_not_X c : Str.lower_char c ≠ "X"%char.
Proof. destruct c as [[] [] [] [] [] [] [] []]; discriminate. Qed.

Lemma lower_not_X s rest : Str.lower s ≠ String "X" rest.
Proof.
  destruct s as [|c s']; [done|].
  intros [Hc _]%lower_cons_eq; [|done..]. by apply lower_char_not_X in Hc.
Qed.

Lemma context_mapping_lower s : context_mapping !! Str.lower s = None.
Proof.
  unfold context_mapping.
  rewrite !lookup_insert_ne, lookup_singleton_ne;
    [done|apply not_eq_sym, lower_not_X..].
Qed.

(** X13: the keys of the context mapping of line 44 are in upper case and
    the criticality is looked up in lower case, so the lookup never
    succeeds: the prepared system_context is NaN for every cell, and a row
    that carries it leaves an error marker, never a decision. *)
Theorem context_mapping_never_matches (criticite : pyobj) :
  str_lower_map context_mapping criticite = PNaN ∧
  ∀ row : gmap string pyobj,
    row !! "system_context" = Some (str_lower_map context_mapping criticite) →
    is_error_entry (entry_of row) = true.
Proof.
  assert (str_lower_map context_mapping criticite = PNaN) as ->.
  { destruct criticite as [s| |]; simpl; [|done..].
    by rewrite context_mapping_lower. }
  split; [done|]. intros row Hsc. unfold entry_of, try_row.
  destruct (_ || _); cbn [mbind result_bind]; [reflexivity|].
  destruct (isna (get row "exploit_maturity")); cbn [mbind result_bind];
    [by destruct (getitem row "Nature Exploit")|].
  unfold get at 1. rewrite Hsc. cbn [default isna].
  by destruct (getitem row "Criticité").
Qed.

Lemma context_mapping_never_matches_XX :
  str_lower_map context_mapping (PStr "XX") = PNaN ∧
  is_error_entry
    (entry_of (<["system_context" := str_lower_map context_mapping (PStr "XX")]>
                 (sample_row "active" "high"))) = true.
Proof.
  split.
  - apply (context_mapping_never_matches (PStr "XX")).
  - apply (proj2 (context_mapping_never_matches (PStr "XX"))).
    apply lookup_insert_eq.
Defined.

Lemma is_ascii_lower s : is_ascii s = true → is_ascii (Str.lower s) = true.
Proof.
  induction s as [s IH] using string_length_ind.
  destruct s as [|c s']; [done|]. cbn [is_ascii].
  intros [Hc Hs']%andb_true_iff.
  rewrite lower_cons_plain by (intros ->; done).
  cbn [is_ascii]. rewrite IH by (done || simpl; lia).
  rewrite andb_true_r. revert Hc.
  destruct c as [[] [] [] [] [] [] [] []]; by vm_compute.
Qed.

Lemma exploit_mapping_values k x :
  exploit_mapping !! k = Some x → x ∈ ["active"; "poc"; "none"].
Proof.
  apply (map_Forall_lookup_1 (λ _ x, x ∈ ["active"; "poc"; "none"])).
  apply (bool_decide_unpack _). by vm_compute.
Qed.

(** X14: the exploit mapping of line 43 followed by the classifier: a
    wording whose lower-case form is internet or existant gives Active,
    proof of concept gives PoC and non prouvé gives None; an ASCII wording
    whose lower-case form is none of these is prepared as NaN; a cell that
    is prepared as a text holds active, poc or none. *)
Theorem exploit_mapping_classified (nature : string) :
  (Str.lower nature ∈ ["internet"; "existant"] →
   get_exploitation_level (str_lower_map exploit_mapping (PStr nature))
   = Return ACTIVE) ∧
  (Str.lower nature = "proof of concept" →
   get_exploitation_level (str_lower_map exploit_mapping (PStr nature))
   = Return POC) ∧
  (Str.lower nature = "non prouvé" →
   get_exploitation_level (str_lower_map exploit_mapping (PStr nature))
   = Return NONE) ∧
  (is_ascii nature = true →
   Str.lower nature ∉ ["internet"; "existant"; "proof of concept"] →
   str_lower_map exploit_mapping (PStr nature) = PNaN) ∧
  (∀ x, str_lower_map exploit_mapping (PStr nature) = PStr x →
        x ∈ ["active"; "poc"; "none"]).
Proof.
  unfold str_lower_map. repeat split.
  - rewrite !elem_of_cons, elem_of_nil. intros [->|[->|[]]]; reflexivity.
  - intros ->. reflexivity.
  - intros ->. reflexivity.
  - intros Hascii Hout. apply is_ascii_lower in Hascii.
    unfold exploit_mapping.
    rewrite !lookup_insert_ne, lookup_singleton_ne; [done|..];
      intros E; rewrite <- E in *; first [done|apply Hout; set_solver].
  - intros x. destruct (exploit_mapping !! Str.lower nature) as [y|] eqn:Hy;
      [|done]. intros [= <-]. by eapply exploit_mapping_values.
Qed.

Lemma exploit_mapping_classified_Internet :
  get_exploitation_level (str_lower_map exploit_mapping (PStr "Internet"))
  = Return ACTIVE ∧
  get_exploitation_level (str_lower_map exploit_mapping (PStr "Non Prouvé"))
  = Return NONE ∧
  str_lower_map exploit_mapping (PStr "unknown") = PNaN.
Proof.
  split; [|split].
  - apply (proj1 (exploit_mapping_classified "Internet")).
    eval_strings. set_solver.
  - by apply (proj1 (proj2 (proj2 (exploit_mapping_classified "Non Prouvé")))).
  - apply (proj1 (proj2 (proj2 (proj2 (exploit_mapping_classified "unknown")))));
      [reflexivity|].
    eval_strings. rewrite !elem_of_cons, elem_of_nil. naive_solver.
Defined.

End preparation.

(** * Properties of [parse_cvss_vector] *)

Section splitting.

Import StrOps.

Lemma count_app c s t : count c (s +:+ t) = (count c s + count c t)%nat.
Proof. induction s as [|x s IH]; simpl; [done|]. rewrite IH. lia. Qed.

Lemma split_not_nil sep s : split sep s ≠ [].
Proof.
  destruct s as [|x s]; simpl; [done|].
  destruct (Ascii.eqb x sep); [done|]. by destruct (split sep s).
Qed.

Lemma split_length sep s : length (split sep s) = S (count sep s).
Proof.
  induction s as [|x s IH]; simpl; [done|].
  destruct (Ascii.eqb x sep); simpl; [by rewrite IH|].
  destruct (split sep s); simpl in *; [done|lia].
Qed.

(** No part of a split contains the separator. *)
Lemma split_parts sep s : Forall (λ part, count sep part = 0) (split sep s).
Proof.
  induction s as [|x s IH]; simpl; [by repeat constructor|].
  destruct (Ascii.eqb x sep) eqn:Hx; [by constructor|].
  destruct (split sep s) as [|part parts]; [repeat constructor; simpl; by rewrite Hx|].
  inversion_clear IH. constructor; [|done]. simpl. by rewrite Hx.
Qed.

(** Joining the parts of a split gives the text back. *)
Lemma join_split sep s : join sep (split sep s) = s.
Proof.
  induction s as [|x s IH]; simpl; [done|].
  pose proof (split_not_nil sep s) as Hne.
  destruct (Ascii.eqb x sep) eqn:Hx.
  - apply Ascii.eqb_eq in Hx as ->.
    destruct (split sep s) as [|part parts]; [done|].
    simpl in *. by rewrite IH.
  - destruct (split sep s) as [|part parts]; [done|].
    destruct parts as [|part' parts]; simpl in *; by rewrite <- IH.
Qed.

Lemma split_no_sep sep part : count sep part = 0 → split sep part = [part].
Proof.
  induction part as [|x part IH]; simpl; [done|].
  destruct (Ascii.eqb x sep); simpl; [done|]. intros H. by rewrite IH.
Qed.

Lemma split_app_sep sep part rest :
  count sep part = 0 →
  split sep (part +:+ String sep rest) = part :: split sep rest.
Proof.
  induction part as [|x part IH]; simpl.
  - by rewrite Ascii.eqb_refl.
  - destruct (Ascii.eqb x sep); simpl; [done|]. intros H. by rewrite IH.
Qed.

(** Splitting a join of parts without separator gives the parts back. *)
Lemma split_join sep parts :
  parts ≠ [] → Forall (λ part, count sep part = 0) parts →
  split sep (join sep parts) = parts.
Proof.
  induction parts as [|part parts IH]; [done|]. intros _ Hall.
  inversion_clear Hall as [|? ? Hpart Hparts].
  destruct parts as [|part' parts]; simpl.
  - by apply split_no_sep.
  - rewrite split_app_sep by done. f_equal. by apply IH.
Qed.

End splitting.

Section parsing.

Import StrOps Prepare.

(** The unpacking succeeds exactly on an item with one colon, and gives
    the texts before and after it. *)
Lemma unpack_pair_Some item key value :
  unpack_pair item = Some (key, value) ↔
  item = key +:+ String ":" value ∧ count ":" key = 0 ∧ count ":" value = 0.
Proof.
  unfold unpack_pair. split.
  - pose proof (join_split ":" item) as Hjoin.
    pose proof (split_parts ":" item) as Hparts.
    destruct (split ":" item) as [|k [|v [|? ?]]]; try done.
    intros [= -> ->]. simpl in Hjoin.
    inversion_clear Hparts as [|? ? Hk Hv]. inversion_clear Hv. done.
  - intros (-> & Hk & Hv).
    by rewrite split_app_sep, split_no_sep.
Qed.

Lemma unpack_pair_is_Some item :
  is_Some (unpack_pair item) ↔ count ":" item = 1.
Proof.
  unfold unpack_pair. pose proof (split_length ":" item) as Hlen.
  destruct (split ":" item) as [|k [|v [|? ?]]]; simpl in Hlen;
    split; intros H; try done; try lia; try by destruct H.
Qed.

Lemma comprehension_Some items d d' :
  comprehension items d = Some d' →
  Forall (λ item, count ":" item = 1) items.
Proof.
  revert d. induction items as [|item items IH]; intros d; simpl; [done|].
  destruct (unpack_pair item) as [[key value]|] eqn:Hitem; [|done].
  intros Hrest. constructor; [|by eapply IH].
  apply unpack_pair_is_Some. by rewrite Hitem.
Qed.

Lemma comprehension_is_Some items d :
  Forall (λ item, count ":" item = 1) items →
  is_Some (comprehension items d).
Proof.
  revert d. induction items as [|item items IH]; intros d Hall; simpl; [done|].
  inversion_clear Hall as [|? ? Hitem Hitems].
  apply unpack_pair_is_Some in Hitem as [[key value] ->]. by apply IH.
Qed.

Lemma comprehension_not_empty items d d' :
  comprehension items d = Some d' → d ≠ ∅ ∨ items ≠ [] → d' ≠ ∅.
Proof.
  revert d. induction items as [|item items IH]; intros d; simpl.
  - intros [= <-] [?|?]; done.
  - destruct (unpack_pair item) as [[key value]|]; [|done].
    intros Hrest _. eapply IH; [done|]. left. apply insert_non_empty.
Qed.

(** X15: [parse_cvss_vector] is all or nothing: its result is not empty
    exactly when every item of the vector, cut at the slashes, has exactly
    one colon.  One item without colon or with two, an empty item left by
    a slash at the end, an empty cell: the whole dictionary is empty, also
    for the items that are well formed. *)
Theorem parse_cvss_vector_not_empty_iff (vector_string : pyobj) :
  parse_cvss_vector vector_string ≠ ∅ ↔
  Forall (λ item, count ":" item = 1) (split "/" (format vector_string)).
Proof.
  unfold parse_cvss_vector. split.
  - destruct (comprehension _ ∅) as [d|] eqn:Hd; [|done].
    intros _. by eapply comprehension_Some.
  - intros Hall.
    destruct (comprehension_is_Some _ ∅ Hall) as [d Hd]. rewrite Hd. simpl.
    eapply comprehension_not_empty; [done|]. right. apply split_not_nil.
Qed.

Lemma no_capital_lower s : no_capital (Str.lower s) = true.
Proof.
  induction s as [s IH] using string_length_ind.
  destruct s as [|c s']; [done|].
  destruct (lower_cons c s') as [(rest & -> & -> & ->)|[_ ->]];
    cbn [no_capital]; rewrite IH by (simpl; lia); [done|].
  rewrite andb_true_r. destruct c as [[] [] [] [] [] [] [] []]; by vm_compute.
Qed.

Lemma is_ascii_app s t : is_ascii (s +:+ t) = is_ascii s && is_ascii t.
Proof.
  induction s as [|x s IH]; simpl; [done|]. by rewrite IH, andb_assoc.
Qed.

Lemma split_ascii sep s :
  is_ascii s = true → Forall (λ part, is_ascii part = true) (split sep s).
Proof.
  induction s as [|x s IH]; simpl; [by repeat constructor|].
  intros [Hx Hs]%andb_true_iff. specialize (IH Hs).
  destruct (Ascii.eqb x sep); [by constructor|].
  destruct (split sep s) as [|part parts];
    [repeat constructor; simpl; by rewrite Hx|].
  inversion_clear IH. constructor; [|done]. simpl. by rewrite Hx.
Qed.

Lemma unpack_pair_ascii item key value :
  is_ascii item = true → unpack_pair item = Some (key, value) →
  is_ascii key = true ∧ is_ascii value = true.
Proof.
  intros Hitem (-> & _ & _)%unpack_pair_Some.
  rewrite is_ascii_app in Hitem. simpl in Hitem.
  by apply andb_true_iff in Hitem.
Qed.

Lemma comprehension_lower items d d' :
  comprehension items d = Some d' →
  map_Forall (λ k x, no_capital k = true ∧ no_capital x = true) d →
  map_Forall (λ k x, no_capital k = true ∧ no_capital x = true) d'.
Proof.
  revert d. induction items as [|item items IH]; intros d; simpl.
  - by intros [= <-].
  - destruct (unpack_pair item) as [[key value]|]; [|done].
    intros Hrest Hd. eapply IH; [done|].
    apply map_Forall_insert_2; [|done]. by rewrite !no_capital_lower.
Qed.

Lemma comprehension_ascii items d d' :
  Forall (λ item, is_ascii item = true) items →
  comprehension items d = Some d' →
  map_Forall (λ k x, is_ascii k = true ∧ is_ascii x = true) d →
  map_Forall (λ k x, is_ascii k = true ∧ is_ascii x = true) d'.
Proof.
  revert d. induction items as [|item items IH]; intros d Hitems; simpl.
  - by intros [= <-].
  - inversion_clear Hitems as [|? ? Hitem Hrest].
    destruct (unpack_pair item) as [[key value]|] eqn:Hu; [|done].
    destruct (unpack_pair_ascii _ _ _ Hitem Hu) as [Hk Hv].
    intros Hd' Hd. eapply IH; [done..|].
    apply map_Forall_insert_2; [|done]. by rewrite !is_ascii_lower.
Qed.

(** X16: no key and no value of the dictionary [parse_cvss_vector] returns
    contains an ASCII capital, whatever the case of the vector; for a
    vector of ASCII characters the keys and the values are ASCII too, so
    that they are in lower case. *)
Theorem parse_cvss_vector_lower (vector_string : pyobj) key value :
  parse_cvss_vector vector_string !! key = Some value →
  no_capital key = true ∧ no_capital value = true ∧
  (is_ascii (format vector_string) = true →
   is_ascii key = true ∧ is_ascii value = true).
Proof.
  unfold parse_cvss_vector.
  destruct (comprehension _ ∅) as [d|] eqn:Hd; simpl; [|done].
  intros Hkey.
  destruct (comprehension_lower _ _ _ Hd (map_Forall_empty _) key value Hkey)
    as [Hk Hv].
  split; [done|]. split; [done|]. intros Hascii.
  by apply (comprehension_ascii _ _ _ (split_ascii "/" _ Hascii) Hd
              (map_Forall_empty _) key value Hkey).
Qed.

Lemma parse_cvss_vector_lower_AC :
  parse_cvss_vector (PStr "AV:N/AC:L") !! "ac" = Some "l" ∧
  no_capital "ac" = true ∧ no_capital "l" = true ∧
  is_ascii "ac" = true ∧ is_ascii "l" = true.
Proof.
  split; [reflexivity|].
  destruct (parse_cvss_vector_lower (PStr "AV:N/AC:L") "ac" "l")
    as (Hk & Hv & Hascii); [reflexivity|].
  destruct Hascii as [Ak Av]; [reflexivity|]. done.
Defined.

(** The comprehension over the items of a list of pairs: the pairs in
    lower case, a later pair before an earlier one of the same key. *)
Lemma comprehension_pairs (pairs : list (string * string)) d :
  Forall (λ kv, count ":" kv.1 = 0 ∧ count ":" kv.2 = 0) pairs →
  comprehension ((λ kv, kv.1 +:+ String ":" kv.2) <$> pairs) d
  = Some (list_to_map
            (reverse ((λ kv, (Str.lower kv.1, Str.lower kv.2)) <$> pairs)) ∪ d).
Proof.
  revert d. induction pairs as [|[key value] pairs IH]; intros d Hall; simpl.
  - by rewrite (left_id_L ∅ (∪)).
  - inversion_clear Hall as [|? ? [Hk Hv] Hpairs]. simpl in *.
    rewrite (proj2 (unpack_pair_Some _ key value)) by done.
    rewrite IH by done. f_equal.
    rewrite reverse_cons, list_to_map_app. simpl.
    rewrite <- (assoc_L (∪)). f_equal.
    by rewrite <- insert_union_l, (left_id_L ∅ (∪)).
Qed.

(** X17: parsing a vector written from pairs: when the keys and the
    values are ASCII texts without slash or colon, the vector made of the
    items key:value joined by slashes parses to the dictionary of the
    pairs in lower case, where the last pair of a key is the one that
    counts. *)
Theorem parse_cvss_vector_pairs (pairs : list (string * string)) :
  Forall (λ kv, is_ascii kv.1 = true ∧ is_ascii kv.2 = true) pairs →
  Forall (λ kv, count "/" kv.1 = 0 ∧ count ":" kv.1 = 0 ∧
                count "/" kv.2 = 0 ∧ count ":" kv.2 = 0) pairs →
  parse_cvss_vector
    (PStr (join "/" ((λ kv, kv.1 +:+ String ":" kv.2) <$> pairs)))
  = list_to_map
      (reverse ((λ kv, (Str.lower kv.1, Str.lower kv.2)) <$> pairs)).
Proof.
  intros _ Hall. destruct (decide (pairs = [])) as [->|Hne]; [reflexivity|].
  unfold parse_cvss_vector. cbn [format].
  rewrite split_join.
  - rewrite comprehension_pairs.
    + simpl. by rewrite (right_id_L ∅ (∪)).
    + eapply Forall_impl; [done|]. naive_solver.
  - by destruct pairs.
  - apply Forall_fmap. eapply Forall_impl; [done|].
    intros [key value] (Hk & _ & Hv & _). simpl in *.
    rewrite count_app. simpl. lia.
Qed.

Lemma parse_cvss_vector_pairs_sample :
  parse_cvss_vector (PStr "AC:L/PR:N/ac:H")
  = list_to_map [("ac", "h"); ("pr", "n"); ("ac", "l")].
Proof.
  apply (parse_cvss_vector_pairs [("AC", "L"); ("PR", "N"); ("ac", "H")]);
    repeat constructor.
Defined.

End parsing.

(** * Properties of the file names *)

Section file_names.

Import StrOps Prepare.

Lemma length_app s t :
  String.length (s +:+ t) = (String.length s + String.length t)%nat.
Proof. induction s as [|x s IH]; simpl; [done|]. by rewrite IH. Qed.

(** The lower-case form of a name that ends in ".csv" ends in ".csv". *)
Lemma lower_app_csv s : ∃ p, Str.lower (s +:+ ".csv") = p +:+ ".csv".
Proof.
  induction s as [s IH] using string_length_ind.
  destruct s as [|c s']; [by exists ""|].
  change (String c s' +:+ ".csv") with (String c (s' +:+ ".csv")).
  destruct (lower_cons c (s' +:+ ".csv")) as [(rest & -> & Hs' & ->)|[_ ->]].
  - destruct s' as [|x [|y s'']]; [done..|].
    injection Hs' as -> -> <-.
    destruct (IH s'') as [p ->]; [simpl; lia|]. by exists (String "k" p).
  - destruct (IH s') as [p ->]; [simpl; lia|].
    by exists (String (Str.lower_char c) p).
Qed.

Lemma prefix_iff old s :
  String.prefix old s = true ↔ ∃ post, s = old +:+ post.
Proof.
  revert s. induction old as [|x old IH]; intros s.
  - split; [intros _; by exists s|by destruct s].
  - destruct s as [|y s]; simpl; [split; [done|by intros [? ?]]|].
    destruct (ascii_dec x y) as [->|Hxy].
    + rewrite IH. split; intros [post Hpost]; exists post.
      * simpl. by rewrite Hpost.
      * simpl in Hpost. by injection Hpost.
    + split; [done|]. intros [post [= ? _]]. done.
Qed.

Lemma substring_skip p m t :
  substring (String.length p) m (p +:+ t) = substring 0 m t.
Proof. induction p as [|x p IH]; simpl; done. Qed.

Lemma substring_all t : substring 0 (String.length t) t = t.
Proof. induction t as [|x t IH]; simpl; [done|]. by rewrite IH. Qed.

Lemma endswith_app p suffix : endswith (p +:+ suffix) suffix = true.
Proof.
  unfold endswith. cbv zeta. rewrite length_app.
  replace (String.length p + String.length suffix - String.length suffix)%nat
    with (String.length p) by lia.
  rewrite substring_skip, substring_all, String.eqb_refl.
  rewrite andb_true_r. apply Nat.leb_le. lia.
Qed.

(** Without an occurrence of [old] the text is left as it is. *)
Lemma replace_none old new s :
  (¬ ∃ pre post, s = pre +:+ old +:+ post) → replace old new s = s.
Proof.
  unfold replace. induction s as [|x s IH]; intros Hno;
    cbn [replace_from]; [done|].
  destruct (String.prefix old (String x s)) eqn:Hp.
  - exfalso. apply Hno. apply prefix_iff in Hp as [post ->]. by exists "", post.
  - rewrite IH; [done|]. intros (pre & post & ->). apply Hno.
    by exists (String x pre), post.
Qed.

(** With a [new] at least as long as [old], replacing never shortens. *)
Lemma replace_from_length old new s k :
  (1 ≤ String.length old)%nat → (String.length old ≤ String.length new)%nat →
  (String.length s ≤ String.length (replace_from old new s k) + k)%nat.
Proof.
  intros Hold Hnew. revert k.
  induction s as [|x s IH]; intros k; cbn [replace_from String.length]; [lia|].
  destruct k as [|k]; [|specialize (IH k); lia].
  destruct (String.prefix old (String x s)).
  - rewrite length_app. specialize (IH (String.length old - 1)%nat). lia.
  - cbn [String.length]. specialize (IH 0%nat). lia.
Qed.

(** With a longer [new], an occurrence makes the text longer. *)
Lemma replace_occurs_length old new pre post :
  (1 ≤ String.length old)%nat → (String.length old < String.length new)%nat →
  (String.length (pre +:+ old +:+ post)
   < String.length (replace old new (pre +:+ old +:+ post)))%nat.
Proof.
  intros Hold Hnew. unfold replace.
  assert (∀ x s, String.prefix old (String x s) = true →
            (String.length (String x s)
             < String.length (replace_from old new (String x s) 0))%nat)
    as Hhit.
  { intros x s Hp. cbn [replace_from String.length]. rewrite Hp, length_app.
    pose proof (replace_from_length old new s (String.length old - 1)).
    lia. }
  induction pre as [|x pre IH].
  - destruct old as [|y old]; [simpl in Hold; lia|].
    apply Hhit. apply prefix_iff. by exists post.
  - change (String x pre +:+ old +:+ post)
      with (String x (pre +:+ old +:+ post)).
    destruct (String.prefix old (String x (pre +:+ old +:+ post))) eqn:Hp.
    + by apply Hhit.
    + cbn [replace_from String.length]. rewrite Hp.
      cbn [String.length]. lia.
Qed.

(** X18: the name of the report is the name of the input exactly when
    ".csv" does not occur in the input name as it is written: the guard
    compares in lower case and the replacement does not, so that for an
    accepted name like DATA.CSV the report is written over the input. *)
Theorem output_file_same_iff (input_file : string) :
  output_file input_file = input_file ↔
  ¬ ∃ pre post, input_file = pre +:+ ".csv" +:+ post.
Proof.
  unfold output_file. split.
  - intros Hsame (pre & post & ->).
    pose proof (replace_occurs_length ".csv" "_ssvc_rapport_final.csv" pre post)
      as Hlen.
    rewrite Hsame in Hlen. simpl in Hlen. lia.
  - apply replace_none.
Qed.

Lemma output_file_same_iff_DATA :
  accepts "DATA.CSV" = true ∧ output_file "DATA.CSV" = "DATA.CSV".
Proof.
  split; [reflexivity|].
  apply (proj2 (output_file_same_iff "DATA.CSV")).
  intros (pre & post & H).
  do 8 (destruct pre as [|? pre]; [discriminate H|injection H as _ H]).
  by destruct pre.
Defined.

(** An occurrence of ".csv" cannot begin in the stem and end in the
    extension: the dot is its first character only. *)
Lemma prefix_csv_stem stem :
  String.prefix ".csv" (stem +:+ ".csv") = true →
  stem = "" ∨ ∃ post, stem = ".csv" +:+ post.
Proof.
  intros [post Hpost]%prefix_iff.
  destruct stem as [|c0 [|c1 [|c2 [|c3 rest]]]]; [by left|try done..].
  right. exists rest. injection Hpost as -> -> -> -> _. done.
Qed.

(** X19: for an input name made of a stem in which ".csv" does not occur
    and of the extension ".csv", the guard of line 28 accepts the name and
    the report is named by the stem followed by
    "_ssvc_rapport_final.csv". *)
Theorem output_file_csv (stem : string) :
  (¬ ∃ pre post, stem = pre +:+ ".csv" +:+ post) →
  accepts (stem +:+ ".csv") = true ∧
  output_file (stem +:+ ".csv") = stem +:+ "_ssvc_rapport_final.csv".
Proof.
  intros Hno. split.
  - unfold accepts. destruct (lower_app_csv stem) as [p ->].
    apply endswith_app.
  - unfold output_file, replace.
    induction stem as [|x stem IH]; [reflexivity|].
    change (String x stem +:+ ".csv") with (String x (stem +:+ ".csv")).
    cbn [replace_from].
    destruct (String.prefix ".csv" (String x (stem +:+ ".csv"))) eqn:Hp.
    + exfalso. apply (prefix_csv_stem (String x stem)) in Hp as [?|[post Hp]];
        [done|]. apply Hno. by exists "", post.
    + rewrite IH; [done|]. intros (pre & post & ->). apply Hno.
      by exists (String x pre), post.
Qed.

Lemma output_file_csv_data :
  accepts "data.csv" = true ∧
  output_file "data.csv" = "data_ssvc_rapport_final.csv".
Proof.
  apply (output_file_csv "data").
  intros (pre & post & H).
  do 4 (destruct pre as [|? pre]; [discriminate H|injection H as _ H]).
  by destruct pre.
Defined.

End file_names.

(** * Properties of the rendering of the report *)

Section rendering.

Import Report.

Lemma value_translation_map_dom :
  dom value_translation_map
  = list_to_set (rename <$> ["av"; "ac"; "pr"; "ui"; "s"; "c"; "i"; "a"]).
Proof. apply (bool_decide_unpack _). by vm_compute. Qed.

(** X20: the translation of the values only touches the eight columns of
    the CVSS vector, under the names the renaming gives them: each of
    these columns has its dictionary, and in every other column, among
    them the four columns of the SSVC result, every cell is left as it
    is. *)
Theorem translate_cell_columns (column : string) (v : pyobj) :
  (column ∈ ["av"; "ac"; "pr"; "ui"; "s"; "c"; "i"; "a"] →
   is_Some (value_translation_map !! rename column)) ∧
  (column ∉ rename <$> ["av"; "ac"; "pr"; "ui"; "s"; "c"; "i"; "a"] →
   translate_cell column v = v) ∧
  (column ∈ ["SSVC Exploitation"; "SSVC Automatable";
             "SSVC Technical Impact"; "SSVC Action";
             "exploit_maturity"; "system_context"] →
   translate_cell (rename column) v = v).
Proof.
  assert (∀ col, col ∉ rename <$> ["av"; "ac"; "pr"; "ui"; "s"; "c"; "i"; "a"] →
                 translate_cell col v = v) as Hout.
  { intros col Hcol. unfold translate_cell. destruct v as [s| |]; [|done..].
    assert (value_translation_map !! col = None) as ->; [|done].
    apply not_elem_of_dom. rewrite value_translation_map_dom.
    by rewrite elem_of_list_to_set. }
  split; [|split].
  - intros Hcol. apply elem_of_dom.
    rewrite value_translation_map_dom, elem_of_list_to_set.
    by apply list_elem_of_fmap_2.
  - apply Hout.
  - rewrite !elem_of_cons, elem_of_nil.
    intros [->|[->|[->|[->|[->|[->|[]]]]]]]; apply Hout;
      intros (k & Hk & Hin)%list_elem_of_fmap; revert Hk;
      rewrite !elem_of_cons, elem_of_nil in Hin;
      destruct Hin as [->|[->|[->|[->|[->|[->|[->|[->|[]]]]]]]]];
      by vm_compute.
Qed.

Lemma translate_cell_columns_action :
  translate_cell "SSVC - Action Finale" (PStr "Track*") = PStr "Track*" ∧
  translate_cell (rename "c") (PStr "h") = PStr "Élevé".
Proof.
  split; [|reflexivity].
  apply (proj2 (proj2 (translate_cell_columns "SSVC Action" (PStr "Track*")))).
  set_solver.
Defined.

End rendering.

(** * The batch, from the frame read to the output *)

Section batch.

Import SsvcConverter Main Prepare Frame.

Lemma str_lower_map_context_mapping v :
  str_lower_map context_mapping v = PNaN.
Proof.
  destruct v as [s| |]; simpl; [|done..]. by rewrite context_mapping_lower.
Qed.

Lemma system_context_NaN_entry (row : gmap string pyobj) :
  row !! "system_context" = Some PNaN → is_error_entry (entry_of row) = true.
Proof.
  intros Hsc. unfold entry_of, try_row.
  destruct (_ || _); cbn [mbind result_bind]; [reflexivity|].
  destruct (isna (get row "exploit_maturity")); cbn [mbind result_bind];
    [by destruct (getitem row "Nature Exploit")|].
  unfold get at 1. rewrite Hsc. cbn [default isna].
  by destruct (getitem row "Criticité").
Qed.

Lemma prepare_row_system_context columns row :
  prepare_row columns row !! "system_context" = Some PNaN.
Proof.
  unfold prepare_row. cbv zeta.
  apply lookup_union_Some_l.
  by rewrite lookup_insert_eq, str_lower_map_context_mapping.
Qed.

Lemma prepare_Return dataframe rows :
  prepare dataframe = Return rows →
  ∃ columns, rows = prepare_row columns <$> dataframe.
Proof.
  unfold prepare.
  destruct (column dataframe "Nature Exploit") as [nature|];
    cbn [mbind result_bind]; [|done].
  destruct (str_accessor nature); cbn [mbind result_bind]; [|done].
  destruct (column dataframe "Criticité") as [criticite|];
    cbn [mbind result_bind]; [|done].
  destruct (str_accessor criticite); cbn [mbind result_bind]; [|done].
  destruct (column dataframe "CVSS 3 Vecteur") as [vectors|];
    cbn [mbind result_bind]; [|done].
  intros [= <-]. eauto.
Qed.

(** C8: what [main.py] does with a batch, from the frame it has read.  No
    batch gives a decision: when the run reaches its end there is one
    entry per record, in the order of the records, and every entry is an
    error marker, because the prepared system_context is NaN for every
    record (the keys of the context mapping are in upper case, the lookup
    is in lower case).  And a frame whose column Nature Exploit holds no
    text is not processed at all: the [.str] accessor of line 48 raises
    outside the [try] block of the loop. *)
Theorem main_never_decides (dataframe : list (gmap string pyobj)) :
  (∀ results_list,
     main dataframe = Return results_list →
     length results_list = length dataframe ∧
     Forall (λ entry, is_error_entry entry = true) results_list) ∧
  (dataframe ≠ [] →
   Forall (λ row, ∃ v, row !! "Nature Exploit" = Some v ∧
                       isinstance_str v = false) dataframe →
   main dataframe
   = Raise (AttributeError "Can only use .str accessor with string values!")).
Proof.
  split.
  - intros results_list. destruct dataframe as [|row0 dataframe].
    { by intros [= <-]. }
    cbn [main].
    destruct (prepare (row0 :: dataframe)) as [rows|] eqn:Hrows;
      cbn [mbind result_bind]; [|done].
    apply prepare_Return in Hrows as [columns ->].
    rewrite process_rows_entry_of, app_nil_l. intros Hres.
    assert (results_list
            = entry_of <$> (prepare_row columns <$> row0 :: dataframe))
      as -> by congruence.
    rewrite !length_fmap. split; [done|].
    apply Forall_fmap, Forall_fmap, Forall_forall. intros row _. simpl.
    apply system_context_NaN_entry, prepare_row_system_context.
  - intros Hne Hall. destruct dataframe as [|row0 dataframe]; [done|].
    cbn [main]. unfold prepare, column.
    assert (forallb (λ row, bool_decide (is_Some (row !! "Nature Exploit")))
              (row0 :: dataframe) = true) as ->.
    { apply forallb_forall. intros row Hrow%list_elem_of_In.
      apply bool_decide_eq_true_2.
      destruct (proj1 (Forall_forall _ _) Hall row Hrow) as (v & -> & _).
      eauto. }
    cbn [mbind result_bind]. unfold str_accessor.
    assert (existsb isinstance_str (flip get "Nature Exploit"
                                      <$> row0 :: dataframe) = false) as ->;
      [|done].
    apply not_true_is_false. intros (v & Hv & Htext)%existsb_exists.
    apply list_elem_of_In, list_elem_of_fmap in Hv as (row & -> & Hrow).
    destruct (proj1 (Forall_forall _ _) Hall row Hrow) as (v & Hlook & Hno).
    unfold flip, get in Htext. rewrite Hlook in Htext. simpl in Htext.
    congruence.
Qed.

(** The batch of four full records and one without confidentiality
    metric: five markers on the criticality, no decision; and a batch of
    one record without exploit wording: no output at all. *)
Lemma main_never_decides_example :
  (∃ results_list,
     main example_frame = Return results_list ∧
     length results_list = 5 ∧
     Forall (λ entry, is_error_entry entry = true) results_list ∧
     (results_list ≫= λ entry, option_list (entry !! "SSVC Action"))
     = ["Erreur de traitement: Criticité non reconnue: 'XX'";
        "Erreur de traitement: Criticité non reconnue: 'X'";
        "Erreur de traitement: Criticité non reconnue: 'XX'";
        "Erreur de traitement: Criticité non reconnue: 'XXX'";
        "Erreur de traitement: Criticité non reconnue: 'XX'"]) ∧
  main [record PNaN (PStr "XX")
          (PStr "CVSS:3.1/AV:N/AC:L/PR:N/UI:N/S:U/C:H/I:H/A:H")]
  = Raise (AttributeError "Can only use .str accessor with string values!").
Proof.
  split.
  - assert (raises (main example_frame) = false) as Hr
      by (vm_compute; reflexivity).
    destruct (main example_frame) as [results_list|e] eqn:Hmain;
      [|discriminate Hr].
    exists results_list. split; [done|].
    destruct (proj1 (main_never_decides example_frame) results_list Hmain)
      as [Hlen Hall].
    split; [exact Hlen|]. split; [exact Hall|].
    change (results_list ≫= λ entry, option_list (entry !! "SSVC Action"))
      with (match Return results_list with
            | Return l => l ≫= λ entry, option_list (entry !! "SSVC Action")
            | Raise _ => []
            end).
    rewrite <- Hmain. vm_compute. reflexivity.
  - apply (proj2 (main_never_decides _)); [done|].
    repeat constructor. exists PNaN. split; [|done]. reflexivity.
Defined.

End batch.
